(** * FFMpegSplit: the timing-file parser of [main.py]

    A shallow embedding of the parsing half of [main.py]
    ([parse_time], [parse_track], [get_next_line], [get_timings]) and the
    properties of the timing-file format that follow from it.

    Conventions of the embedding.
    - A Python [str] is a [string]; a character is a code point below 256.
      In that range the regular-expression class [\d] and the digits accepted
      by [int] are exactly ['0'..'9'].
    - A Python [float] is an IEEE 754 binary64 number ([spec_float] with
      precision 53 and maximal exponent 1024) and arithmetic on it rounds to
      nearest, ties to even, as the interpreter does.
    - A function that may raise returns an [outcome]; a function that returns
      an error message in place of its result (the [isinstance(_, str)]
      protocol of [main.py]) returns a sum whose left side is the message.
    - The file system is a parameter of [get_timings]: the text of the timing
      file, the string of a [Path] and whether it exists. *)

From Stdlib Require Import ZArith String Ascii Bool Lia DecimalString.
From Stdlib Require Import Floats.SpecFloat.
From stdpp Require Import base option list strings gmap.
From Equations Require Import Equations.

Local Open Scope string_scope.
Local Open Scope list_scope.
Local Open Scope nat_scope.

(** ** Python values and exceptions *)

Inductive exn : Type :=
| OverflowError
| ValueError
| TypeError
| IndexError
| ZeroDivisionError.

Inductive outcome (A : Type) : Type :=
| Return (a : A)
| Raise (e : exn).
Arguments Return {A} a.
Arguments Raise {A} e.

#[global] Instance outcome_ret : MRet outcome := fun _ a => Return a.
#[global] Instance outcome_bind : MBind outcome := fun _ _ f m =>
  match m with
  | Return a => f a
  | Raise e => Raise e
  end.

(** The numbers [parse_time] computes with: [int] and [float]. *)
Inductive number : Type :=
| PyInt (z : Z)
| PyFloat (f : spec_float).

(** What [parse_time] returns: [False] or a number of seconds. *)
Inductive time_or_false : Type :=
| PyFalse
| PyTime (n : number).

Module Float.

Definition prec : Z := 53.
Definition emax : Z := 1024.

(** [float(z)]: the nearest binary64 number. *)
Definition of_int (z : Z) : spec_float :=
  binary_normalize prec emax z 0 false.

Definition is_finite (f : spec_float) : bool :=
  match f with
  | S754_zero _ | S754_finite _ _ _ => true
  | S754_infinity _ | S754_nan => false
  end.

(** The integer [z] as an unrounded mantissa with exponent 0. *)
Definition exact (z : Z) : spec_float :=
  match z with
  | Z0 => S754_zero false
  | Zpos p => S754_finite false p 0
  | Zneg p => S754_finite true p 0
  end.

(** The quotient of two integers, rounded once. *)
Definition quotient (a b : Z) : spec_float :=
  SFdiv prec emax (exact a) (exact b).

Definition add (x y : spec_float) : spec_float := SFadd prec emax x y.

(** The exact value of a finite float is [m * 2^e]; [eq_int f z] decides
    whether it is the integer [z]. *)
Definition eq_int (f : spec_float) (z : Z) : bool :=
  match f with
  | S754_zero _ => (z =? 0)%Z
  | S754_finite s m e =>
      let sm := if s then Z.neg m else Z.pos m in
      if (0 <=? e)%Z then (z =? sm * 2 ^ e)%Z
      else (z * 2 ^ (- e) =? sm)%Z
  | _ => false
  end.

End Float.

(** [a / b] on two [int]s: the correctly rounded quotient, [OverflowError]
    when it does not fit a float, [ZeroDivisionError] when [b] is 0. *)
Definition py_truediv (a b : Z) : outcome spec_float :=
  if (b =? 0)%Z then Raise ZeroDivisionError
  else
    let q := Float.quotient a b in
    if Float.is_finite q then Return q else Raise OverflowError.

(** [float(z)] as the interpreter converts an [int] operand of a mixed
    operation: [OverflowError] when [z] is too large. *)
Definition py_float (z : Z) : outcome spec_float :=
  let f := Float.of_int z in
  if Float.is_finite f then Return f else Raise OverflowError.

(** [x + y] (and so [x += y]) on numbers. *)
Definition py_add (x y : number) : outcome number :=
  match x, y with
  | PyInt a, PyInt b => Return (PyInt (a + b))
  | PyInt a, PyFloat g => f ← py_float a; Return (PyFloat (Float.add f g))
  | PyFloat f, PyInt b => g ← py_float b; Return (PyFloat (Float.add f g))
  | PyFloat f, PyFloat g => Return (PyFloat (Float.add f g))
  end.

(** [x == y] on numbers: an [int] and a [float] are compared by value. *)
Definition py_eq (x y : number) : bool :=
  match x, y with
  | PyInt a, PyInt b => (a =? b)%Z
  | PyInt a, PyFloat g => Float.eq_int g a
  | PyFloat f, PyInt b => Float.eq_int f b
  | PyFloat f, PyFloat g => SFeqb f g
  end.

(** ** Strings *)

Definition is_digit (c : ascii) : bool :=
  (48 <=? nat_of_ascii c)%nat && (nat_of_ascii c <=? 57)%nat.

Definition digit_value (c : ascii) : Z := Z.of_nat (nat_of_ascii c) - 48.

Fixpoint all_digits (s : string) : bool :=
  match s with
  | EmptyString => true
  | String c s' => is_digit c && all_digits s'
  end.

Fixpoint int_digits (acc : Z) (s : string) : Z :=
  match s with
  | EmptyString => acc
  | String c s' => int_digits (10 * acc + digit_value c) s'
  end.

(** [int(s)] for the strings [parse_time] converts, the digit runs captured
    by the regular expression: leading zeros are allowed; anything that is
    not a non-empty run of digits is a [ValueError] here. The limit that
    recent interpreters may put on the length of [s] is not modelled. *)
Definition int (s : string) : outcome Z :=
  match s with
  | EmptyString => Raise ValueError
  | _ => if all_digits s then Return (int_digits 0 s) else Raise ValueError
  end.

(** ** The fragment of [re] that [TIME_RE] uses

    A backtracking matcher in continuation-passing style: [exec r cur g k]
    matches [r] at the cursor [cur] with the groups [g] captured so far and
    hands the new cursor and groups to [k]; when [k] fails the matcher tries
    its next alternative, greedy choices first. *)

Inductive charset : Type :=
| Digit               (* \d *)
| Lit (c : ascii).    (* a literal character, \. included *)

Definition charset_mem (cs : charset) (c : ascii) : bool :=
  match cs with
  | Digit => is_digit c
  | Lit d => bool_decide (c = d)
  end.

Inductive regex : Type :=
| Bol                               (* ^ *)
| Eol                               (* $ *)
| Chr (cs : charset)
| Cat (r1 r2 : regex)
| Opt (r : regex)                   (* (?:r)? *)
| Plus (cs : charset)               (* cs+ *)
| Group (name : string) (r : regex) (* (?P<name>r) *).

Record cursor : Type := Cursor { pos : nat; rest : string }.

Definition captures : Type := gmap string string.

Definition newline : ascii := ascii_of_nat 10.

(** [$] without [re.MULTILINE]: the end of the string, or just before a
    newline that ends the string. *)
Definition at_eol (s : string) : bool :=
  match s with
  | EmptyString => true
  | String c EmptyString => bool_decide (c = newline)
  | _ => false
  end.

Fixpoint exec_plus (cs : charset) (s : string) (p : nat) (g : captures)
    (k : cursor → captures → option captures) : option captures :=
  match s with
  | EmptyString => None
  | String c s' =>
      if charset_mem cs c then
        match exec_plus cs s' (S p) g k with
        | Some m => Some m
        | None => k (Cursor (S p) s') g
        end
      else None
  end.

Fixpoint exec (r : regex) (cur : cursor) (g : captures)
    (k : cursor → captures → option captures) : option captures :=
  match r with
  | Bol => if Nat.eqb (pos cur) 0 then k cur g else None
  | Eol => if at_eol (rest cur) then k cur g else None
  | Chr cs =>
      match rest cur with
      | String c s' =>
          if charset_mem cs c then k (Cursor (S (pos cur)) s') g else None
      | EmptyString => None
      end
  | Cat r1 r2 => exec r1 cur g (λ cur' g', exec r2 cur' g' k)
  | Opt r' =>
      match exec r' cur g k with
      | Some m => Some m
      | None => k cur g
      end
  | Plus cs => exec_plus cs (rest cur) (pos cur) g k
  | Group name r' =>
      exec r' cur g (λ cur' g',
        k cur' (<[name := substring 0 (pos cur' - pos cur) (rest cur)]> g'))
  end.

(** [pattern.match(s)]: a match at the start of [s]; the result holds the
    named groups that took part in the match. *)
Definition re_match (r : regex) (s : string) : option captures :=
  exec r (Cursor 0 s) ∅ (λ _ g, Some g).

(** The truth value of [match[name]]: [None] and the empty string are
    false. *)
Definition group_true (m : captures) (name : string) : bool :=
  match m !! name with
  | Some (String _ _) => true
  | _ => false
  end.

(** [int(match[name])]; [int(None)] is a [TypeError]. *)
Definition int_group (m : captures) (name : string) : outcome Z :=
  match m !! name with
  | Some s => int s
  | None => Raise TypeError
  end.

(** ** [parse_time] *)

Definition two_digits : regex := Cat (Chr Digit) (Chr Digit).

(** [^(?:(?:(?P<H>\d\d):)?(?P<M>\d\d):)?(?P<S>\d\d)(?:(?:\.)(?P<ms>\d+))?$] *)
Definition TIME_RE : regex :=
  Cat Bol
   (Cat (Opt (Cat (Opt (Cat (Group "H" two_digits) (Chr (Lit ":"))))
                  (Cat (Group "M" two_digits) (Chr (Lit ":")))))
    (Cat (Group "S" two_digits)
     (Cat (Opt (Cat (Chr (Lit ".")) (Group "ms" (Plus Digit))))
          Eol))).

Definition parse_time (time : string) : outcome time_or_false :=
  match re_match TIME_RE time with
  | None => Return PyFalse
  | Some m =>
      s ← int_group m "S";
      let seconds := PyInt s in
      seconds ←
        (if group_true m "H"
         then h ← int_group m "H"; py_add seconds (PyInt (h * 3600))
         else Return seconds);
      seconds ←
        (if group_true m "M"
         then mi ← int_group m "M"; py_add seconds (PyInt (mi * 60))
         else Return seconds);
      seconds ←
        (if group_true m "ms"
         then ms ← int_group m "ms"; q ← py_truediv ms 1000;
              py_add seconds (PyFloat q)
         else Return seconds);
      Return (PyTime seconds)
  end.

(** ** Strings, continued: [split], [strip] and [%] *)

(** [s.split(sep)] for a one-character separator: never empty. *)
Fixpoint split (sep : ascii) (s : string) : list string :=
  match s with
  | EmptyString => [EmptyString]
  | String c s' =>
      if bool_decide (c = sep) then EmptyString :: split sep s'
      else
        match split sep s' with
        | p :: ps => String c p :: ps
        | [] => [String c EmptyString]
        end
  end.

(** [str.isspace] on one code point below 256. *)
Definition is_space (c : ascii) : bool :=
  let n := nat_of_ascii c in
  ((9 <=? n)%nat && (n <=? 13)%nat) || ((28 <=? n)%nat && (n <=? 32)%nat)
  || (n =? 133)%nat || (n =? 160)%nat.

Fixpoint lstrip (s : string) : string :=
  match s with
  | EmptyString => EmptyString
  | String c s' => if is_space c then lstrip s' else s
  end.

Fixpoint rstrip (s : string) : string :=
  match s with
  | EmptyString => EmptyString
  | String c s' =>
      match rstrip s' with
      | EmptyString => if is_space c then EmptyString else String c EmptyString
      | r => String c r
      end
  end.

(** [s.strip()] *)
Definition strip (s : string) : string := rstrip (lstrip s).

(** [str(n)] for a line count. *)
Definition str_of_nat (n : nat) : string :=
  NilZero.string_of_uint (Nat.to_uint n).

Inductive fmt_arg : Type :=
| ArgStr (s : string)
| ArgInt (n : nat).

Definition str_of_arg (a : fmt_arg) : string :=
  match a with
  | ArgStr s => s
  | ArgInt n => str_of_nat n
  end.

(** [template % args] for templates whose only conversions are [%s] and
    [%d], with as many arguments as conversions (the messages of [main.py]):
    each conversion is replaced by the next argument, left to right. *)
Fixpoint format (template : string) (args : list fmt_arg) : string :=
  match template with
  | EmptyString => EmptyString
  | String c t =>
      if bool_decide (c = "%"%char) then
        match t with
        | String d t' =>
            if bool_decide (d = "s"%char) || bool_decide (d = "d"%char) then
              match args with
              | a :: args' => str_of_arg a +:+ format t' args'
              | [] => String c (String d (format t' []))
              end
            else String c (format t args)
        | EmptyString => String c EmptyString
        end
      else String c (format t args)
  end.

(** [xs[i]]: [IndexError] out of range. *)
Definition item {A : Type} (xs : list A) (i : nat) : outcome A :=
  match xs !! i with
  | Some x => Return x
  | None => Raise IndexError
  end.

(** ** [parse_track] *)

(** The dictionary [parse_track] returns. *)
Record track : Type := Track {
  start_time : number;
  end_time : option number;
  song_name : string;
  artist : option string
}.

Definition set_end_time (v : option number) (t : track) : track :=
  Track (start_time t) v (song_name t) (artist t).

Definition MSG_FIELDS : string :=
  "'%s' at line %d must have a start time and a song name".
Definition MSG_START : string :=
  "'%s' at line %d must follow the correct time syntax in the start time".
Definition MSG_NAME : string :=
  "'%s' at line %d must have a song name".

(** The left side of the result is the error template, still to be filled
    with the timing file's name and the line number. *)
Definition parse_track (line : string) : outcome (string + track) :=
  let parts := split "|" line in
  if (length parts <? 2)%nat then Return (inl MSG_FIELDS)
  else
    p0 ← item parts 0;
    start ← parse_time p0;
    match start with
    | PyFalse => Return (inl MSG_START)
    | PyTime start_time =>
        p1 ← item parts 1;
        e ← parse_time p1;
        let '(name_index, end_time) :=
          match e with
          | PyFalse => (1, None)
          | PyTime t => (2, Some t)
          end in
        if (length parts <=? name_index)%nat then Return (inl MSG_NAME)
        else
          song_name ← item parts name_index;
          artist ←
            (if (name_index + 1 <? length parts)%nat
             then a ← item parts (name_index + 1); Return (Some a)
             else Return None);
          Return (inr (Track start_time end_time song_name artist))
    end.

(** ** Reading the timing file *)

(** A text file open for reading: the lines [readline] has yet to return,
    each with its newline; [readline] returns the empty string once the list
    is exhausted. *)
Definition file : Type := list string.

(** The lines of a text, newlines kept. *)
Fixpoint readlines (text : string) : file :=
  match text with
  | EmptyString => []
  | String c text' =>
      if bool_decide (c = newline) then String c EmptyString :: readlines text'
      else
        match readlines text' with
        | l :: ls => String c l :: ls
        | [] => [String c EmptyString]
        end
  end.

(** [line and line[0] == "#"] *)
Definition is_comment (line : string) : bool :=
  match line with
  | String c _ => bool_decide (c = "#"%char)
  | EmptyString => false
  end.

(** The loop of [get_next_line]: [line] is the line just read and [count]
    the number of lines read so far; each turn reads one more line. *)
Fixpoint skip_comments (line : string) (count : nat) (reader : file)
    : string * nat * file :=
  if is_comment line then
    match reader with
    | l :: reader' => skip_comments l (S count) reader'
    | [] => (EmptyString, S count, [])
    end
  else (line, count, reader).

(** Returns [(line.strip(), count)] and the reader after the lines read. *)
Definition get_next_line (reader : file) : string * nat * file :=
  let '(line, reader) :=
    match reader with
    | l :: reader' => (l, reader')
    | [] => (EmptyString, [])
    end in
  let '(line, count, reader) := skip_comments line 1 reader in
  (strip line, count, reader).

(** The dictionary [get_timings] returns. *)
Record timings : Type := Timings {
  music_file : string;
  tracks : list track
}.

Definition MSG_MUSIC : string :=
  "The given music file '%s' in '%s' doesn't exist".

(** The end-time pass of [get_timings]. The [track] the loop variable is
    bound to is the dictionary at index [i] of the list itself (the slice
    copies the list, not its dictionaries), so it is read from and written
    to the list at [i]. *)
Fixpoint adjust_loop (items : list (nat * track)) (store : list track)
    : outcome (list track) :=
  match items with
  | [] => Return store
  | (i, _) :: items' =>
      track ← item store i;
      store ←
        match end_time track with
        | None =>
            next ← item store (i + 1);
            Return (<[i := set_end_time (Some (start_time next)) track]> store)
        | Some _ => Return store
        end;
      adjust_loop items' store
  end.

(** [enumerate(xs)] *)
Definition enumerate {A : Type} (xs : list A) : list (nat * A) :=
  zip (seq 0 (length xs)) xs.

(** [xs[:-1]] *)
Definition all_but_last {A : Type} (xs : list A) : list A :=
  take (length xs - 1) xs.

Definition adjust_end_times (tracks : list track) : outcome (list track) :=
  if (1 <? length tracks)%nat
  then adjust_loop (enumerate (all_but_last tracks)) tracks
  else Return tracks.

(** Termination of the loop of [get_timings]: a non-empty line was read
    from the reader, and the empty line ends the loop. *)
Definition loop_measure (reader : file) (line : string) : nat :=
  length reader + match line with EmptyString => 0 | _ => 1 end.

(** The [while line:] loop of [get_timings]; the left side of the result
    is the error message. *)
Equations? track_loop (timing_file : string) (reader : file) (line : string)
    (line_num : nat) (tracks : list track)
    : outcome (string + list track)
    by wf (loop_measure reader line) lt :=
  track_loop timing_file reader EmptyString line_num tracks :=
    Return (inr tracks);
  track_loop timing_file reader line line_num tracks
    with parse_track line := {
    | Raise e := Raise e
    | Return (inl msg) :=
        Return (inl (format msg [ArgStr timing_file; ArgInt line_num]))
    | Return (inr track) :=
        track_loop timing_file (get_next_line reader).2
          (get_next_line reader).1.1
          (line_num + (get_next_line reader).1.2)
          (tracks ++ [track]) }.
Proof.
  assert (∀ reader line count,
    loop_measure (skip_comments line count reader).2
                 (strip (skip_comments line count reader).1.1)
    ≤ loop_measure reader line) as Hskip.
  { clear. induction reader as [|l reader IH]; intros line count; simpl;
      destruct (is_comment line) eqn:E; simpl; unfold loop_measure in *.
    - simpl; lia.
    - destruct line; simpl; [lia|]. destruct (strip _); lia.
    - specialize (IH l (S count)).
      destruct line; [done|]. simpl. destruct l; simpl in *; lia.
    - destruct line; simpl; [lia|]. destruct (strip _); simpl; lia. }
  unfold get_next_line, loop_measure in *.
  destruct reader as [|l reader]; [simpl; lia|].
  specialize (Hskip reader l 1).
  destruct (skip_comments l 1 reader) as [[line' count'] reader'].
  simpl in *. destruct l; simpl in *; lia.
Qed.

Section Timings.

(** The file system: the text of a file, with newlines translated as
    text mode does; [str(Path(s))]; and [Path.exists] on that string. A
    path, the [timing_file] argument included, is held as its string. *)
Variable read_text : string → string.
Variable Path : string → string.
Variable path_exists : string → bool.

(** [get_timings] up to the end of its [while] loop: the music file and
    the tracks as parsed, or the error message. *)
Definition read_timings (timing_file : string)
    : outcome (string + string * list track) :=
  let reader := readlines (read_text timing_file) in
  let '(line, lines, reader) := get_next_line reader in
  let music_file := Path line in
  if negb (path_exists music_file) then
    Return (inl (format MSG_MUSIC [ArgStr music_file; ArgStr timing_file]))
  else
    let '(line, next_lines, reader) := get_next_line reader in
    let line_num := lines + next_lines in
    r ← track_loop timing_file reader line line_num [];
    match r with
    | inl msg => Return (inl msg)
    | inr tracks => Return (inr (music_file, tracks))
    end.

(** [get_timings]: the lines above, then the end-time pass. *)
Definition get_timings (timing_file : string) : outcome (string + timings) :=
  r ← read_timings timing_file;
  match r with
  | inl msg => Return (inl msg)
  | inr (music_file, tracks) =>
      tracks ← adjust_end_times tracks;
      Return (inr (Timings music_file tracks))
  end.

End Timings.

(** ** [split], [check_good_file] and [main]

    What these functions do to the world is kept as a list of events, in the
    order of the source: the texts printed, the directories made and the
    commands run. The world's answers are parameters. *)

Inductive event : Type :=
| Printed (text end_ : string)   (* print(text, end=end_) *)
| MadeDir (dir : string)         (* dir.mkdir(exist_ok=True) *)
| Ran (command : list string).   (* subprocess.run(command, ...) *)

Definition LF : string := String newline EmptyString.
Definition CR : string := String (ascii_of_nat 13) EmptyString.

(** [str(z)] for an [int]. *)
Definition str_of_Z (z : Z) : string := NilZero.string_of_int (Z.to_int z).

(** [x - y] on numbers. *)
Definition py_sub (x y : number) : outcome number :=
  match x, y with
  | PyInt a, PyInt b => Return (PyInt (a - b))
  | PyInt a, PyFloat g =>
      f ← py_float a; Return (PyFloat (SFsub Float.prec Float.emax f g))
  | PyFloat f, PyInt b =>
      g ← py_float b; Return (PyFloat (SFsub Float.prec Float.emax f g))
  | PyFloat f, PyFloat g =>
      Return (PyFloat (SFsub Float.prec Float.emax f g))
  end.

Definition MSG_FFMPEG : string :=
  "FFMpeg error on track '%s' in '%s'" +:+ LF +:+ "Stderr:" +:+ LF +:+ "%s".
Definition MSG_NO_FFMPEG : string :=
  "FFMpeg needs to be installed on this machine and able to be found on the PATH".
Definition MSG_NO_FILE : string := "The file '%s' doesn't exist".
Definition MSG_SPLITTING : string := "Splitting '%s'...".
Definition MSG_TRACK : string := "Splitting '%s' at track #%d/%d".
Definition MSG_FINISHED : string := "Finished splitting '%s' for %d tracks".

(** How [main] ends: it returns, [exit(code)] is called, or an exception
    leaves it. *)
Inductive ending : Type :=
| Finished
| Exited (code : Z)
| Raised (e : exn).

Section Main.

(** The world: [str] of a float; for the music file [file], the string of
    [(file.parent / file.stem).resolve()] and [file.suffix]; the return code
    and the decoded standard error of a command; whether the first run of
    [ffmpeg --help] succeeds; whether a timing file exists; and the
    parameters of [get_timings]. *)
Variable str_float : spec_float → string.
Variable music_dir : string → string.
Variable suffix : string → string.
Variable ffmpeg : list string → Z * string.
Variable ffmpeg_found : bool.
Variable file_exists : string → bool.
Variable read_text : string → string.
Variable Path : string → string.
Variable path_exists : string → bool.

(** [str(n)] for a number. *)
Definition str_number (n : number) : string :=
  match n with
  | PyInt z => str_of_Z z
  | PyFloat f => str_float f
  end.

(** The name of the file to create: the song, and the artist when there is
    one ([if track["artist"]:] is false on [None] and on the empty
    string). *)
Definition track_name (track : track) : string :=
  let name := song_name track in
  match artist track with
  | Some (String _ _ as a) => name +:+ format " by %s" [ArgStr a]
  | _ => name
  end.

(** The command [split] builds, one [append] after the other. *)
Definition split_options (file : string) (track : track)
    : outcome (list string) :=
  let options := ["ffmpeg"] in
  let options := options ++ ["-ss"] in
  let options := options ++ [str_number (start_time track)] in
  options ←
    match end_time track with
    | Some e =>
        let options := options ++ ["-t"] in
        d ← py_sub e (start_time track);
        Return (options ++ [str_number d])
    | None => Return options
    end;
  let options := options ++ ["-i"] in
  let options := options ++ [file] in
  let options := options ++ ["-c"] in
  let options := options ++ ["copy"] in
  let options := options ++ ["-y"] in
  let name := track_name track in
  Return (options ++
    [format "%s/%s%s"
       [ArgStr (music_dir file); ArgStr name; ArgStr (suffix file)]]).

(** [split]: the events, and the error message or [None]. *)
Definition split_track (file : string) (track : track)
    : list event * outcome (option string) :=
  match split_options file track with
  | Raise e => ([], Raise e)
  | Return options =>
      let events := [MadeDir (music_dir file); Ran options] in
      let '(returncode, stderr) := ffmpeg options in
      (events,
       if (returncode =? 0)%Z then Return None
       else
         dest ← item options (length options - 1);
         Return (Some (format MSG_FFMPEG
                         [ArgStr dest; ArgStr file; ArgStr stderr])))
  end.

(** [check_good_file] *)
Definition check_good_file (file : string) : list event * bool :=
  if negb (file_exists file)
  then ([Printed (format MSG_NO_FILE [ArgStr file]) LF], false)
  else ([], true).

(** [[get_timings(i) for i in args.timing_files if check_good_file(i)]] *)
Fixpoint all_timings (timing_files : list string)
    : list event * outcome (list (string + timings)) :=
  match timing_files with
  | [] => ([], Return [])
  | i :: rest =>
      let '(events, good) := check_good_file i in
      if good then
        match get_timings read_text Path path_exists i with
        | Raise e => (events, Raise e)
        | Return r =>
            let '(events', rs) := all_timings rest in
            (events ++ events', rs ← rs; Return (r :: rs))
        end
      else
        let '(events', rs) := all_timings rest in
        (events ++ events', rs)
  end.

(** The loop of [main] over [enumerate(i["tracks"])]: it stops at the first
    track [split] has a message for. *)
Fixpoint split_tracks (music : string) (size : nat)
    (items : list (nat * track)) : list event * outcome unit :=
  match items with
  | [] => ([], Return tt)
  | (num, track) :: rest =>
      match split_track music track with
      | (events, Raise e) => (events, Raise e)
      | (events, Return (Some track_result)) =>
          (events ++ [Printed track_result LF], Return tt)
      | (events, Return None) =>
          let progress :=
            Printed (format MSG_TRACK
                       [ArgStr music; ArgInt num; ArgInt size]) CR in
          let '(events', r) := split_tracks music size rest in
          (events ++ progress :: events', r)
      end
  end.

(** The loop of [main] over [all_tracks]. *)
Fixpoint split_all (all_tracks : list (string + timings))
    : list event * outcome unit :=
  match all_tracks with
  | [] => ([], Return tt)
  | inl message :: rest =>
      let '(events, r) := split_all rest in
      (Printed message LF :: events, r)
  | inr i :: rest =>
      let start := Printed (format MSG_SPLITTING [ArgStr (music_file i)]) CR in
      let size := length (tracks i) in
      match split_tracks (music_file i) size (enumerate (tracks i)) with
      | (events, Raise e) => (start :: events, Raise e)
      | (events, Return _) =>
          let finish :=
            Printed (format MSG_FINISHED
                       [ArgStr (music_file i); ArgInt size]) LF in
          let '(events', r) := split_all rest in
          (start :: events ++ finish :: events', r)
      end
  end.

(** [main], after [argparse] has read the timing files. *)
Definition main (timing_files : list string) : list event * ending :=
  let probe := Ran ["ffmpeg"; "--help"] in
  if negb ffmpeg_found then ([probe; Printed MSG_NO_FFMPEG LF], Exited 1)
  else
    match all_timings timing_files with
    | (events, Raise e) => (probe :: events, Raised e)
    | (events, Return all_tracks) =>
        match split_all all_tracks with
        | (events', Raise e) => (probe :: events ++ events', Raised e)
        | (events', Return _) => (probe :: events ++ events', Finished)
        end
    end.

End Main.

(** * The specification's side

    What the claims speak of, defined from the words of the specification
    and compared with the embedding in the properties that follow. *)

(** ** The time grammar of the specification

    [[HH:]MM:]SS[.ddd...]: an optional [HH:] prefix (only before [MM:]), an
    optional [MM:] prefix, two digits of seconds and an optional [.] followed
    by one or more digits. *)

Inductive time_prefix : Type :=
| NoPrefix
| WithMinutes (m1 m2 : ascii)
| WithHours (h1 h2 m1 m2 : ascii).

Definition two (a b : ascii) : string := String a (String b EmptyString).

Definition prefix_text (pre : time_prefix) : string :=
  match pre with
  | NoPrefix => ""
  | WithMinutes m1 m2 => two m1 m2 +:+ ":"
  | WithHours h1 h2 m1 m2 => two h1 h2 +:+ ":" +:+ two m1 m2 +:+ ":"
  end.

Definition fraction_text (frac : option string) : string :=
  match frac with
  | None => ""
  | Some d => "." +:+ d
  end.

Definition time_text (pre : time_prefix) (s1 s2 : ascii)
    (frac : option string) : string :=
  prefix_text pre +:+ two s1 s2 +:+ fraction_text frac.

Definition prefix_ok (pre : time_prefix) : bool :=
  match pre with
  | NoPrefix => true
  | WithMinutes m1 m2 => is_digit m1 && is_digit m2
  | WithHours h1 h2 m1 m2 =>
      is_digit h1 && is_digit h2 && is_digit m1 && is_digit m2
  end.

Definition fraction_ok (frac : option string) : bool :=
  match frac with
  | None => true
  | Some d => negb (bool_decide (d = EmptyString)) && all_digits d
  end.

Definition grammar_ok (pre : time_prefix) (s1 s2 : ascii)
    (frac : option string) : bool :=
  prefix_ok pre && is_digit s1 && is_digit s2 && fraction_ok frac.

(** The value of a two-digit field. *)
Definition field (a b : ascii) : Z := 10 * digit_value a + digit_value b.

Definition hours (pre : time_prefix) : Z :=
  match pre with
  | WithHours h1 h2 _ _ => field h1 h2
  | _ => 0
  end.

Definition minutes (pre : time_prefix) : Z :=
  match pre with
  | WithHours _ _ m1 m2 | WithMinutes m1 m2 => field m1 m2
  | NoPrefix => 0
  end.

(** [H*3600 + M*60 + S] *)
Definition whole_seconds (pre : time_prefix) (s1 s2 : ascii) : Z :=
  hours pre * 3600 + minutes pre * 60 + field s1 s2.

(** The groups of a match of [TIME_RE] on a text of the grammar. *)
Definition prefix_groups (pre : time_prefix) : captures :=
  match pre with
  | NoPrefix => ∅
  | WithMinutes m1 m2 => <["M" := two m1 m2]> ∅
  | WithHours h1 h2 m1 m2 => <["M" := two m1 m2]> (<["H" := two h1 h2]> ∅)
  end.

Definition time_groups (pre : time_prefix) (s1 s2 : ascii)
    (frac : option string) : captures :=
  let g := <["S" := two s1 s2]> (prefix_groups pre) in
  match frac with
  | None => g
  | Some d => <["ms" := d]> g
  end.

(** The fraction digits, taken as an integer and divided by 1000, fit a
    float. *)
Definition fraction_fits (frac : option string) : bool :=
  match frac with
  | None => true
  | Some d => Float.is_finite (Float.quotient (int_digits 0 d) 1000)
  end.

(** [H*3600 + M*60 + S + ms/1000], an [int] when there is no fraction. *)
Definition time_value (pre : time_prefix) (s1 s2 : ascii)
    (frac : option string) : number :=
  match frac with
  | None => PyInt (whole_seconds pre s1 s2)
  | Some d =>
      PyFloat (Float.add (Float.of_int (whole_seconds pre s1 s2))
                         (Float.quotient (int_digits 0 d) 1000))
  end.

(** The two characters of a number below 100. *)
Definition digit_char (n : nat) : ascii := ascii_of_nat (48 + n).
Definition tens (n : nat) : ascii := digit_char (n / 10).
Definition units (n : nat) : ascii := digit_char (n mod 10).

(** ** The lines of a timing file *)

(** A line that yields a track. *)
Definition track_line (l : string) : bool :=
  negb (is_comment l)
  && match strip l, parse_track (strip l) with
     | String _ _, Return (inr _) => true
     | _, _ => false
     end.

(** A malformed line, with the message [parse_track] has for it. *)
Definition malformed_line (l : string) : option string :=
  if is_comment l then None
  else
    match strip l, parse_track (strip l) with
    | String _ _, Return (inl msg) => Some msg
    | _, _ => None
    end.

Definition comment_or_track (l : string) : bool :=
  is_comment l || track_line l.

(** The tracks of the track lines among [lines], in their order. *)
Definition parsed_tracks (lines : file) : list track :=
  omap (λ l,
    if is_comment l then None
    else match parse_track (strip l) with
         | Return (inr t) => Some t
         | _ => None
         end) lines.

(** The state of the loop after [get_next_line] on [reader]. *)
Definition loop_after (timing_file : string) (reader : file) (n : nat)
    (tracks : list track) : outcome (string + list track) :=
  track_loop timing_file (get_next_line reader).2 (get_next_line reader).1.1
    (n + (get_next_line reader).1.2) tracks.

(** The lines that are not comments. *)
Definition real_lines (reader : file) : file :=
  filter (λ l, is_comment l = false) reader.

(** A result without its error message. *)
Definition without_message {A : Type} (r : outcome (string + A))
    : outcome (option A) :=
  match r with
  | Return (inl _) => Return None
  | Return (inr a) => Return (Some a)
  | Raise e => Raise e
  end.

(** ** The resolution pass *)

(** The resolution pass in the specification's words: every track but the
    last whose end time is absent takes the start time of the track that
    follows it. *)
Fixpoint resolved (tracks : list track) : list track :=
  match tracks with
  | [] => []
  | t :: rest =>
      match end_time t, rest with
      | None, next :: _ => set_end_time (Some (start_time next)) t
      | _, _ => t
      end :: resolved rest
  end.

(** ** A bounded search, and the files of the examples *)

(** A bounded search: [P] holds of [0], ..., [n - 1]. *)
Definition all_below (P : Z → bool) (n : N) : bool :=
  (N.iter n (λ bz : bool * Z, (bz.1 && P bz.2, (bz.2 + 1)%Z)) (true, 0%Z)).1.

(** [n] copies of [c]. *)
Fixpoint run (n : nat) (c : ascii) : string :=
  match n with
  | 0 => EmptyString
  | S n' => String c (run n' c)
  end.

(** A text from its lines, each ended by a newline. *)
Definition text_of (lines : list string) : string :=
  foldr (λ l t, l +:+ String newline t) EmptyString lines.

Definition with_newline (l : string) : string :=
  l +:+ String newline EmptyString.

Definition all_exist : string → bool := λ _, true.
Definition none_exists : string → bool := λ _, false.

(** Four tracks, the second with an end time. *)
Definition album : string :=
  text_of ["music.mp3"; "00|A"; "10|20|B|X"; "30|C"; "40|D"].

Definition album_raw : list track :=
  [Track (PyInt 0) None "A" None;
   Track (PyInt 10) (Some (PyInt 20)) "B" (Some "X");
   Track (PyInt 30) None "C" None;
   Track (PyInt 40) None "D" None].

(** A file with comments; its sixth line has an end time and no name. *)
Definition commented : list string :=
  ["# album"; "music.mp3"; "# side one"; "00|A"; "# side two"; "10|20";
   "30|C"].

Definition uncommented : list string :=
  ["music.mp3"; "00|A"; "10|20"; "30|C"].

(** ** Vocabulary of the further properties *)

(** [c in s] *)
Fixpoint has_char (c : ascii) (s : string) : bool :=
  match s with
  | EmptyString => false
  | String c' s' => bool_decide (c' = c) || has_char c s'
  end.

(** The text of a line end: nothing, or one newline. *)
Definition nl : string := String newline EmptyString.

(** The lines of a text put end to end. *)
Definition concat_lines (lines : list string) : string :=
  foldr String.append EmptyString lines.

(** The commands among the events. *)
Definition commands (events : list event) : list (list string) :=
  omap (λ e, match e with Ran c => Some c | _ => None end) events.


(** A time that [parse_time] can return: an [int] is the whole seconds of
    a text of the grammar. *)
Definition time_ok (n : number) : bool :=
  match n with
  | PyInt z => (0 <=? z)%Z && (z <=? 362439)%Z
  | PyFloat _ => true
  end.

Definition track_ok (t : track) : bool :=
  time_ok (start_time t)
  && match end_time t with Some e => time_ok e | None => true end.




(** No exception. *)
Definition returns {A : Type} (o : outcome A) : bool :=
  match o with
  | Return _ => true
  | Raise _ => false
  end.

(** [get_timings] raises on none of the timing files that exist. *)
Definition all_parse (file_exists : string → bool)
    (read_text Path : string → string) (path_exists : string → bool)
    (timing_files : list string) : bool :=
  forallb (λ i,
    implb (file_exists i)
          (returns (get_timings read_text Path path_exists i))) timing_files.

(** A world for the examples of [main]: three timing files, of which
    ["gone.txt"] does not exist, ["bad.txt"] has a malformed line and
    ["huge.txt"] a fraction that overflows; [ffmpeg] fails on the track
    that starts at 10. *)
Definition demo_exists (i : string) : bool :=
  negb (bool_decide (i = "gone.txt")).

Definition demo_text (i : string) : string :=
  if bool_decide (i = "bad.txt") then text_of ["music.mp3"; "10"]
  else if bool_decide (i = "huge.txt")
  then text_of ["music.mp3"; "00." +:+ run 400 "9" +:+ "|A"]
  else album.

Definition demo_ffmpeg (command : list string) : Z * string :=
  match command !! 2 with
  | Some "10" => (1%Z, "boom")
  | _ => (0%Z, "")
  end.

Definition demo_main (timing_files : list string) : list event * ending :=
  main (λ _, "") (λ _, "music") (λ _, ".mp3") demo_ffmpeg true demo_exists
    demo_text id all_exist timing_files.

(** * Properties *)

(** ** The regular-expression matcher, one construct at a time *)

Section Exec.

Context (p : nat) (g : captures) (k : cursor → captures → option captures).

Lemma exec_bol s : exec Bol (Cursor 0 s) g k = k (Cursor 0 s) g.
Proof. reflexivity. Qed.

Lemma exec_cat r1 r2 cur :
  exec (Cat r1 r2) cur g k = exec r1 cur g (λ cur' g', exec r2 cur' g' k).
Proof. reflexivity. Qed.

Lemma exec_opt_some r cur m :
  exec r cur g k = Some m → exec (Opt r) cur g k = Some m.
Proof. simpl. by intros ->. Qed.

Lemma exec_opt_none r cur :
  exec r cur g k = None → exec (Opt r) cur g k = k cur g.
Proof. simpl. by intros ->. Qed.

Lemma exec_lit c s :
  exec (Chr (Lit c)) (Cursor p (String c s)) g k = k (Cursor (S p) s) g.
Proof. simpl. by rewrite bool_decide_eq_true_2. Qed.

Lemma exec_group_two_digits name a b s :
  is_digit a = true → is_digit b = true →
  exec (Group name (Cat (Chr Digit) (Chr Digit)))
       (Cursor p (String a (String b s))) g k
  = k (Cursor (S (S p)) s) (<[name := String a (String b EmptyString)]> g).
Proof.
  intros Ha Hb. cbn [exec rest pos]. unfold charset_mem. rewrite Ha.
  cbn [exec rest pos]. unfold charset_mem. rewrite Hb.
  assert (S (S p) - p = 2) as Hp by lia. cbn [pos]. rewrite Hp. simpl.
  by destruct s.
Qed.

End Exec.

Lemma substring_all s : substring 0 (String.length s) s = s.
Proof. induction s as [|c s IH]; simpl; [done|]. by rewrite IH. Qed.

(** [\d+] is greedy: on a run of digits that ends the string it hands the
    whole run to its continuation first. *)
Lemma exec_plus_digits d p g k m :
  d ≠ EmptyString → all_digits d = true →
  k (Cursor (String.length d + p) EmptyString) g = Some m →
  exec_plus Digit d p g k = Some m.
Proof.
  revert p. induction d as [|c d IH]; intros p Hne Hd Hk; [done|].
  simpl in *. apply andb_true_iff in Hd as [Hc Hd]. rewrite Hc.
  destruct d as [|c' d'].
  - simpl in *. exact Hk.
  - rewrite (IH (S p)); [done|done|done|].
    by replace (String.length (String c' d') + S p)
       with (S (String.length (String c' d') + p)) by lia.
Qed.

Lemma time_text_unfold pre s1 s2 frac :
  time_text pre s1 s2 frac =
    let tail :=
      String s1 (String s2
        match frac with None => EmptyString | Some d => String "." d end) in
    match pre with
    | NoPrefix => tail
    | WithMinutes m1 m2 => String m1 (String m2 (String ":" tail))
    | WithHours h1 h2 m1 m2 =>
        String h1 (String h2 (String ":"
          (String m1 (String m2 (String ":" tail)))))
    end.
Proof. by destruct pre, frac. Qed.

(** One two-digit group of [TIME_RE] on two digits. *)
Ltac match_field :=
  rewrite ?exec_cat; unfold two_digits at 1;
  rewrite exec_group_two_digits by done.

(** The tail [(?P<S>\d\d)(?:\.(?P<ms>\d+))?$] of [TIME_RE] on the tail of a
    text of the grammar. *)
Lemma exec_time_tail p g s1 s2 frac :
  is_digit s1 = true → is_digit s2 = true → fraction_ok frac = true →
  exec (Cat (Group "S" two_digits)
         (Cat (Opt (Cat (Chr (Lit ".")) (Group "ms" (Plus Digit)))) Eol))
       (Cursor p (String s1 (String s2
          match frac with None => EmptyString | Some d => String "." d end)))
       g (λ _ g', Some g')
  = Some (match frac with
          | None => <["S" := two s1 s2]> g
          | Some d => <["ms" := d]> (<["S" := two s1 s2]> g)
          end).
Proof.
  intros H1 H2 Hf. rewrite exec_cat. unfold two_digits.
  rewrite exec_group_two_digits by done. rewrite exec_cat.
  destruct frac as [d|]; [|done].
  simpl in Hf. apply andb_true_iff in Hf as [Hne Hd].
  apply negb_true_iff, bool_decide_eq_false in Hne.
  apply exec_opt_some. rewrite exec_cat, exec_lit.
  cbn [exec rest pos].
  apply exec_plus_digits; [done..|]. cbn [at_eol rest pos].
  by replace (String.length d + S (S (S p)) - S (S (S p)))
    with (String.length d) by lia; rewrite substring_all.
Qed.

Lemma re_match_time pre s1 s2 frac :
  grammar_ok pre s1 s2 frac = true →
  re_match TIME_RE (time_text pre s1 s2 frac)
  = Some (time_groups pre s1 s2 frac).
Proof.
  unfold grammar_ok. rewrite !andb_true_iff. intros [[[Hp H1] H2] Hf].
  rewrite time_text_unfold. unfold re_match, TIME_RE, time_groups.
  rewrite exec_cat, exec_bol, exec_cat.
  destruct pre as [|m1 m2|h1 h2 m1 m2]; cbn [prefix_ok prefix_groups] in *;
    rewrite ?andb_true_iff in Hp; cbv zeta.
  - (* SS: neither [HH:] nor [MM:] finds its colon *)
    rewrite exec_opt_none.
    + rewrite (exec_time_tail 0 ∅ s1 s2 frac) by done. by destruct frac.
    + rewrite exec_cat, exec_opt_none; match_field; by destruct frac.
  - (* MM:SS: the attempt to read [MM] as hours fails at the second colon *)
    destruct Hp as [Hm1 Hm2].
    apply exec_opt_some. rewrite exec_cat, exec_opt_none.
    + match_field. rewrite exec_lit.
      rewrite (exec_time_tail 3 _ s1 s2 frac) by done. by destruct frac.
    + match_field. rewrite exec_lit. match_field. by destruct frac.
  - (* HH:MM:SS *)
    destruct Hp as [[[Hh1 Hh2] Hm1] Hm2].
    apply exec_opt_some. rewrite exec_cat. apply exec_opt_some.
    match_field. rewrite exec_lit. match_field. rewrite exec_lit.
    rewrite (exec_time_tail 6 _ s1 s2 frac) by done. by destruct frac.
Qed.

(** ** Numbers *)

Lemma all_below_spec P n :
  all_below P n = true → ∀ z, (0 ≤ z < Z.of_N n)%Z → P z = true.
Proof.
  unfold all_below.
  set (f := λ bz : bool * Z, (bz.1 && P bz.2, (bz.2 + 1)%Z)).
  assert (∀ n, (N.iter n f (true, 0%Z)).2 = Z.of_N n
               ∧ ((N.iter n f (true, 0%Z)).1 = true →
                  ∀ z, (0 ≤ z < Z.of_N n)%Z → P z = true)) as H.
  { clear n. intros n. induction n as [|n [IHz IHb]] using N.peano_ind.
    - split; [done|]. intros _ z Hz. lia.
    - rewrite N.iter_succ. unfold f at 1. unfold f at 2. simpl.
      rewrite IHz. split; [lia|].
      intros Hb z Hz. apply andb_true_iff in Hb as [Hb HP].
      destruct (decide (z = Z.of_N n)) as [->|]; [done|].
      apply IHb; [done|lia]. }
  apply H.
Qed.

Lemma digit_value_range c : is_digit c = true → (0 ≤ digit_value c ≤ 9)%Z.
Proof.
  unfold is_digit, digit_value. rewrite andb_true_iff.
  intros [?%Nat.leb_le ?%Nat.leb_le]. lia.
Qed.

(** A fraction of three digits or fewer, the milliseconds of the file
    format, fits a float once divided by 1000. *)
Lemma milliseconds_fit d :
  all_digits d = true → String.length d ≤ 3 →
  fraction_fits (Some d) = true.
Proof.
  intros Hd Hlen. unfold fraction_fits.
  apply (all_below_spec (λ z, Float.is_finite (Float.quotient z 1000)) 1000);
    [vm_compute; reflexivity|].
  destruct d as [|a [|b [|c [|??]]]]; simpl in *; try lia;
    rewrite ?andb_true_iff in Hd; destruct_and?;
    repeat match goal with
      | H : is_digit _ = true |- _ => apply digit_value_range in H
      end; lia.
Qed.

(** The whole seconds of a time fit a float. *)
Lemma float_of_seconds z :
  (0 ≤ z ≤ 362439)%Z → py_float z = Return (Float.of_int z).
Proof.
  intros Hz. unfold py_float.
  rewrite (all_below_spec (λ z, Float.is_finite (Float.of_int z)) 362440);
    [done| |lia].
  vm_compute. reflexivity.
Qed.

Lemma field_range a b :
  is_digit a = true → is_digit b = true → (0 ≤ field a b ≤ 99)%Z.
Proof.
  intros Ha%digit_value_range Hb%digit_value_range. unfold field. lia.
Qed.

Lemma int_two a b :
  is_digit a = true → is_digit b = true →
  int (two a b) = Return (field a b).
Proof.
  intros Ha Hb. unfold int, two, field. cbn [all_digits int_digits].
  rewrite Ha, Hb. reflexivity.
Qed.

Lemma whole_seconds_range pre s1 s2 :
  prefix_ok pre = true → is_digit s1 = true → is_digit s2 = true →
  (0 ≤ whole_seconds pre s1 s2 ≤ 362439)%Z.
Proof.
  intros Hp H1 H2. pose proof (field_range s1 s2 H1 H2).
  unfold whole_seconds.
  destruct pre as [|m1 m2|h1 h2 m1 m2]; simpl in *;
    rewrite ?andb_true_iff in Hp.
  - lia.
  - destruct Hp as [Hm1 Hm2]. pose proof (field_range m1 m2 Hm1 Hm2). lia.
  - destruct Hp as [[[Hh1 Hh2] Hm1] Hm2].
    pose proof (field_range m1 m2 Hm1 Hm2).
    pose proof (field_range h1 h2 Hh1 Hh2). lia.
Qed.

Lemma int_digit_run d :
  d ≠ EmptyString → all_digits d = true → int d = Return (int_digits 0 d).
Proof. intros Hne Hd. unfold int. destruct d; [done|]. by rewrite Hd. Qed.

(** [parse_time] on a text of the grammar: the sum of its fields, and the
    fraction digits divided by 1000 when there is a fraction. *)
Lemma parse_time_grammar pre s1 s2 frac :
  grammar_ok pre s1 s2 frac = true →
  parse_time (time_text pre s1 s2 frac) =
    match frac with
    | None => Return (PyTime (PyInt (whole_seconds pre s1 s2)))
    | Some d =>
        q ← py_truediv (int_digits 0 d) 1000;
        Return (PyTime (PyFloat
          (Float.add (Float.of_int (whole_seconds pre s1 s2)) q)))
    end.
Proof.
  intros Hok. unfold parse_time. rewrite re_match_time by done.
  pose proof Hok as Hok'. unfold grammar_ok in Hok'.
  rewrite !andb_true_iff in Hok'. destruct Hok' as [[[Hp H1] H2] Hf].
  pose proof (whole_seconds_range pre s1 s2 Hp H1 H2) as Hr.
  unfold group_true, int_group, time_groups, whole_seconds in *.
  destruct pre as [|m1 m2|h1 h2 m1 m2], frac as [d|];
    cbn [prefix_ok prefix_groups fraction_ok hours minutes] in *;
    rewrite ?andb_true_iff in Hp; rewrite ?andb_true_iff in Hf;
    destruct_and?; simplify_map_eq.
  all: unfold field in *.
  all: repeat match goal with
         | H : is_digit _ = true |- _ => rewrite H; clear H
         end; simpl.
  all: try (f_equal; f_equal; f_equal; lia).
  all: match goal with
       | H : negb _ = true |- _ =>
           apply negb_true_iff, bool_decide_eq_false in H
       end.
  all: destruct d as [|c d]; [done|]; rewrite int_digit_run by done; simpl.
  all: destruct (py_truediv _ _) as [q|e]; simpl; [|done].
  all: rewrite float_of_seconds by lia; simpl.
  all: do 5 f_equal; lia.
Qed.

(** ** The loop of [get_timings] *)

Lemma track_loop_step timing_file reader line line_num tracks :
  line ≠ EmptyString →
  track_loop timing_file reader line line_num tracks =
    match parse_track line with
    | Raise e => Raise e
    | Return (inl msg) =>
        Return (inl (format msg [ArgStr timing_file; ArgInt line_num]))
    | Return (inr track) =>
        track_loop timing_file (get_next_line reader).2
          (get_next_line reader).1.1
          (line_num + (get_next_line reader).1.2)
          (tracks ++ [track])
    end.
Proof.
  intros Hne. destruct line as [|c line]; [done|].
  simp track_loop. by destruct (parse_track _) as [[msg|t]|e].
Qed.

Lemma track_loop_end timing_file reader line_num tracks :
  track_loop timing_file reader EmptyString line_num tracks
  = Return (inr tracks).
Proof. by simp track_loop. Qed.

(** [get_next_line], one line at a time. *)
Lemma skip_comments_real line count reader :
  is_comment line = false →
  skip_comments line count reader = (line, count, reader).
Proof. intros H. destruct reader; simpl; by rewrite H. Qed.

Lemma get_next_line_real l reader :
  is_comment l = false → get_next_line (l :: reader) = (strip l, 1, reader).
Proof. intros H. unfold get_next_line. by rewrite skip_comments_real. Qed.

Lemma skip_comments_count line count reader :
  skip_comments line (S count) reader =
    let '(l, n, r) := skip_comments line count reader in (l, S n, r).
Proof.
  revert line count. induction reader as [|l reader IH]; intros line count;
    simpl; destruct (is_comment line); done.
Qed.

Lemma get_next_line_comment l reader :
  is_comment l = true →
  get_next_line (l :: reader) =
    let '(line, n, r) := get_next_line reader in (line, S n, r).
Proof.
  intros H. unfold get_next_line.
  destruct reader as [|l' reader]; simpl; rewrite H; [done|].
  rewrite skip_comments_count.
  by destruct (skip_comments l' 1 reader) as [[??]?].
Qed.

Lemma loop_after_comment timing_file l reader n tracks :
  is_comment l = true →
  loop_after timing_file (l :: reader) n tracks
  = loop_after timing_file reader (S n) tracks.
Proof.
  intros H. unfold loop_after. rewrite get_next_line_comment by done.
  destruct (get_next_line reader) as [[line k] r]. simpl.
  by replace (n + S k) with (S (n + k)) by lia.
Qed.

Lemma loop_after_real timing_file l reader n tracks :
  is_comment l = false →
  loop_after timing_file (l :: reader) n tracks
  = track_loop timing_file reader (strip l) (n + 1) tracks.
Proof.
  intros H. unfold loop_after. by rewrite get_next_line_real.
Qed.

Lemma loop_after_track timing_file l reader n tracks :
  track_line l = true →
  ∃ t, parse_track (strip l) = Return (inr t)
       ∧ loop_after timing_file (l :: reader) n tracks
         = loop_after timing_file reader (n + 1) (tracks ++ [t]).
Proof.
  unfold track_line. rewrite andb_true_iff, negb_true_iff. intros [Hc Hl].
  rewrite loop_after_real by done.
  destruct (strip l) as [|c s] eqn:Hs; [done|].
  rewrite track_loop_step by done.
  destruct (parse_track (String c s)) as [[msg|t]|e]; try done.
  by exists t.
Qed.

Lemma loop_after_malformed timing_file l reader n tracks msg :
  malformed_line l = Some msg →
  loop_after timing_file (l :: reader) n tracks
  = Return (inl (format msg [ArgStr timing_file; ArgInt (n + 1)])).
Proof.
  unfold malformed_line. destruct (is_comment l) eqn:Hc; [done|].
  intros Hl. rewrite loop_after_real by done.
  destruct (strip l) as [|c s] eqn:Hs; [done|].
  rewrite track_loop_step by done.
  destruct (parse_track (String c s)) as [[msg'|t]|e]; try done.
  by injection Hl as ->.
Qed.

(** The loop stops at the first malformed line it reaches, whatever it
    parsed before and whatever follows, and reports the number of that
    line. *)
Lemma loop_after_error timing_file (mid post : file) bad msg n tracks :
  forallb comment_or_track mid = true →
  malformed_line bad = Some msg →
  loop_after timing_file (mid ++ bad :: post) n tracks
  = Return (inl (format msg
      [ArgStr timing_file; ArgInt (n + length mid + 1)])).
Proof.
  intros Hmid Hbad. revert n tracks.
  induction mid as [|l mid IH]; intros n tracks; simpl in *.
  - rewrite (loop_after_malformed _ _ _ _ _ msg) by done.
    by replace (n + 0 + 1) with (n + 1) by lia.
  - apply andb_true_iff in Hmid as [Hl Hmid].
    replace (n + S (length mid) + 1) with (S n + length mid + 1) by lia.
    unfold comment_or_track in Hl.
    destruct (is_comment l) eqn:Hc; simpl in Hl.
    + rewrite loop_after_comment by done. by apply IH.
    + destruct (loop_after_track timing_file l (mid ++ bad :: post) n tracks)
        as (t & _ & ->); [done|].
      replace (n + 1) with (S n) by lia. by apply IH.
Qed.

(** On comment lines and track lines up to the end of the file, the loop
    parses every track line. *)
Lemma loop_after_tracks timing_file (mid : file) n tracks :
  forallb comment_or_track mid = true →
  loop_after timing_file mid n tracks
  = Return (inr (tracks ++ parsed_tracks mid)).
Proof.
  intros Hmid. revert n tracks.
  induction mid as [|l mid IH]; intros n tracks; simpl in *.
  - unfold loop_after. simpl. by rewrite track_loop_end, app_nil_r.
  - apply andb_true_iff in Hmid as [Hl Hmid].
    unfold comment_or_track in Hl.
    destruct (is_comment l) eqn:Hc; simpl in Hl.
    + rewrite loop_after_comment by done. by apply IH.
    + destruct (loop_after_track timing_file l mid n tracks)
        as (t & -> & ->); [done|].
      rewrite IH by done. by rewrite <-app_assoc.
Qed.

Lemma real_lines_cons l reader :
  real_lines (l :: reader)
  = if is_comment l then real_lines reader else l :: real_lines reader.
Proof.
  unfold real_lines. cbn. destruct (is_comment l); by case_decide.
Qed.

(** Without comment lines the loop parses the same tracks. *)
Lemma loop_after_real_lines timing_file reader n n' tracks :
  without_message (loop_after timing_file reader n tracks)
  = without_message (loop_after timing_file (real_lines reader) n' tracks).
Proof.
  revert n n' tracks.
  induction reader as [|l reader IH]; intros n n' tracks; [done|].
  rewrite real_lines_cons. destruct (is_comment l) eqn:Hc.
  - rewrite loop_after_comment by done. apply IH.
  - rewrite !loop_after_real by done.
    destruct (strip l) as [|c s] eqn:Hs.
    + by rewrite !track_loop_end.
    + rewrite !track_loop_step by done.
      destruct (parse_track (String c s)) as [[msg|t]|e]; try done.
      apply IH.
Qed.

Lemma get_next_line_real_lines reader :
  (get_next_line (real_lines reader)).1.1 = (get_next_line reader).1.1
  ∧ (get_next_line (real_lines reader)).2
    = real_lines (get_next_line reader).2.
Proof.
  induction reader as [|l reader IH]; [done|].
  rewrite real_lines_cons. destruct (is_comment l) eqn:Hc.
  - rewrite (get_next_line_comment l) by done.
    by destruct (get_next_line reader) as [[??]?].
  - by rewrite !get_next_line_real.
Qed.

(** ** The end-time pass *)

Lemma resolved_cons t next rest :
  resolved (t :: next :: rest) =
    match end_time t with
    | None => set_end_time (Some (start_time next)) t
    | Some _ => t
    end :: resolved (next :: rest).
Proof. simpl. by destruct (end_time t). Qed.

Lemma item_middle {A : Type} (l1 l2 : list A) (x : A) :
  item (l1 ++ x :: l2) (length l1) = Return x.
Proof. unfold item. by rewrite list_lookup_middle. Qed.

Lemma adjust_loop_resolved (rest front : list track) :
  adjust_loop
    (zip (seq (length front) (length rest - 1)) (take (length rest - 1) rest))
    (front ++ rest)
  = Return (front ++ resolved rest).
Proof.
  revert front. induction rest as [|t rest IH]; intros front; [done|].
  destruct rest as [|next rest]; [simpl; by destruct (end_time t)|].
  replace (length (t :: next :: rest) - 1) with (S (length rest))
    by (simpl; lia).
  cbn [seq take zip zip_with adjust_loop].
  rewrite item_middle. cbn [mbind outcome_bind].
  assert (∀ t', adjust_loop
      (zip (seq (S (length front)) (length rest))
         (take (length rest) (next :: rest)))
      (front ++ t' :: next :: rest)
    = Return (front ++ t' :: resolved (next :: rest))) as Hrest.
  { intros t'. specialize (IH (front ++ [t'])).
    rewrite length_app, Nat.add_1_r, <-!app_assoc in IH.
    replace (length (next :: rest) - 1) with (length rest) in IH
      by (simpl; lia).
    exact IH. }
  rewrite resolved_cons.
  destruct (end_time t) as [e|] eqn:He.
  - cbn [mbind outcome_bind]. apply Hrest.
  - replace (front ++ t :: next :: rest)
      with ((front ++ [t]) ++ next :: rest) by (by rewrite <-app_assoc).
    replace (length front + 1) with (length (front ++ [t]))
      by (rewrite length_app; simpl; lia).
    rewrite item_middle. cbn [mbind outcome_bind].
    rewrite <-app_assoc. cbn [app].
    rewrite insert_app_r_alt, Nat.sub_diag by done.
    apply Hrest.
Qed.

(** The loop over [enumerate(tracks[:-1])] computes the resolution pass and
    raises nothing. *)
Lemma adjust_end_times_resolved tracks :
  adjust_end_times tracks = Return (resolved tracks).
Proof.
  unfold adjust_end_times, enumerate, all_but_last.
  destruct (1 <? length tracks) eqn:Hn.
  - apply Nat.ltb_lt in Hn.
    rewrite length_take, Nat.min_l by lia.
    apply (adjust_loop_resolved tracks []).
  - apply Nat.ltb_ge in Hn.
    destruct tracks as [|t [|??]]; simpl in *;
      [done | by destruct (end_time t) | lia].
Qed.

Lemma resolved_length tracks : length (resolved tracks) = length tracks.
Proof. induction tracks as [|t rest IH]; simpl; [done|]. by rewrite IH. Qed.

Lemma resolved_lookup tracks i t :
  tracks !! i = Some t →
  resolved tracks !! i =
    Some match end_time t, tracks !! S i with
         | None, Some next => set_end_time (Some (start_time next)) t
         | _, _ => t
         end.
Proof.
  revert i. induction tracks as [|t' rest IH]; intros i Hi; [done|].
  destruct i as [|i]; simpl in *.
  - injection Hi as ->. by destruct rest.
  - by apply IH.
Qed.

(** * The claims *)

(** ** [parse_time] *)

(** C1, amended: on every text of the grammar [[HH:]MM:]SS[.ddd...],
    [parse_time] does not return [False]; and when the fraction digits,
    read as an integer whatever their number and divided by 1000, fit a
    float, it returns [H*3600 + M*60 + S + ms/1000]. *)
Theorem parse_time_on_grammar pre s1 s2 frac :
  grammar_ok pre s1 s2 frac = true →
  parse_time (time_text pre s1 s2 frac) ≠ Return PyFalse
  ∧ (fraction_fits frac = true →
     parse_time (time_text pre s1 s2 frac)
     = Return (PyTime (time_value pre s1 s2 frac))).
Proof.
  intros Hok. rewrite parse_time_grammar by done.
  destruct frac as [d|]; [|done].
  unfold py_truediv, time_value, fraction_fits. cbn [Z.eqb].
  by destruct (Float.is_finite _).
Qed.

(** C1 at ["01:02:03.5"]: the fraction [5] counts as 5/1000, so the value is
    3723.005, the float nearest to 3723005/1000. *)
Lemma time_01_02_03_5 :
  grammar_ok (WithHours "0" "1" "0" "2") "0" "3" (Some "5") = true
  ∧ fraction_fits (Some "5") = true
  ∧ parse_time "01:02:03.5"
    = Return (PyTime (PyFloat (Float.quotient 3723005 1000))).
Proof.
  split; [reflexivity|]. split; [reflexivity|].
  exact (proj2 (parse_time_on_grammar (WithHours "0" "1" "0" "2") "0" "3"
                  (Some "5") eq_refl) eq_refl).
Defined.

(** C1 as stated fails twice: ["01:02:03.5"] is not 3723.5 (the float
    37235/10), and a text of the grammar with a fraction of 400 digits makes
    the division raise [OverflowError]. *)
Lemma time_not_3723_5_and_overflow :
  (¬ ∃ v, parse_time "01:02:03.5" = Return (PyTime v)
          ∧ py_eq v (PyFloat (Float.quotient 37235 10)) = true)
  ∧ grammar_ok NoPrefix "0" "0" (Some (run 400 "9")) = true
  ∧ parse_time (time_text NoPrefix "0" "0" (Some (run 400 "9")))
    = Raise OverflowError.
Proof.
  split.
  - intros (v & Hv & Heq). vm_compute in Hv. injection Hv as <-.
    vm_compute in Heq. discriminate.
  - split; vm_compute; reflexivity.
Qed.

(** C2, amended: a seconds field of one digit is not a time, so
    [parse_time("3.12")] is [False]; with two digits,
    [parse_time("03.12")] is 3.012 (3 + 12/1000, the float nearest to
    3012/1000). *)
Theorem parse_time_one_digit_seconds :
  (∀ c rest, parse_time (String c (String "." rest)) = Return PyFalse)
  ∧ parse_time "3.12" = Return PyFalse
  ∧ parse_time "03.12"
    = Return (PyTime (PyFloat (Float.quotient 3012 1000))).
Proof.
  split; [|split; reflexivity].
  intros c rest. unfold parse_time, re_match, TIME_RE, two_digits.
  simpl. by destruct (is_digit c).
Qed.

(** C2 as stated fails: [parse_time("3.12")] is [False], not 3.012. *)
Lemma time_3_12_is_false :
  parse_time "3.12" = Return PyFalse
  ∧ parse_time "3.12"
    ≠ Return (PyTime (PyFloat (Float.quotient 3012 1000))).
Proof. split; [reflexivity|discriminate]. Qed.

Lemma digit_char_digit n : n < 10 → is_digit (digit_char n) = true.
Proof.
  intros Hn. unfold is_digit, digit_char.
  rewrite nat_ascii_embedding by lia.
  apply andb_true_iff. split; apply Nat.leb_le; lia.
Qed.

Lemma digit_char_value n : n < 10 → digit_value (digit_char n) = Z.of_nat n.
Proof.
  intros Hn. unfold digit_value, digit_char.
  rewrite nat_ascii_embedding by lia. lia.
Qed.

Lemma field_tens_units n :
  n < 100 →
  is_digit (tens n) = true ∧ is_digit (units n) = true
  ∧ field (tens n) (units n) = Z.of_nat n.
Proof.
  intros Hn. unfold tens, units, field.
  assert (n / 10 < 10) by (apply Nat.Div0.div_lt_upper_bound; lia).
  assert (n mod 10 < 10) by (apply Nat.mod_upper_bound; lia).
  rewrite !digit_char_digit, !digit_char_value by done.
  split; [done|]. split; [done|].
  pose proof (Nat.div_mod_eq n 10). lia.
Qed.

(** C10: [parse_time] checks no range. Whatever the hours, minutes and
    seconds below 100 (60 to 99 included), the texts [HH:MM:SS], [MM:SS] and
    [SS] are times, with the value [H*3600 + M*60 + S]. *)
Theorem parse_time_no_range_check (h m s : nat) :
  h < 100 → m < 100 → s < 100 →
  parse_time (time_text (WithHours (tens h) (units h) (tens m) (units m))
                (tens s) (units s) None)
  = Return (PyTime (PyInt (Z.of_nat h * 3600 + Z.of_nat m * 60 + Z.of_nat s)))
  ∧ parse_time (time_text (WithMinutes (tens m) (units m))
                  (tens s) (units s) None)
    = Return (PyTime (PyInt (Z.of_nat m * 60 + Z.of_nat s)))
  ∧ parse_time (time_text NoPrefix (tens s) (units s) None)
    = Return (PyTime (PyInt (Z.of_nat s))).
Proof.
  intros (Hh1 & Hh2 & Hh)%field_tens_units (Hm1 & Hm2 & Hm)%field_tens_units
    (Hs1 & Hs2 & Hs)%field_tens_units.
  rewrite !parse_time_grammar
    by (unfold grammar_ok; cbn [prefix_ok fraction_ok];
        by rewrite ?Hh1, ?Hh2, ?Hm1, ?Hm2, ?Hs1, ?Hs2).
  unfold whole_seconds. cbn [hours minutes]. rewrite Hh, Hm, Hs.
  repeat split; do 3 f_equal; lia.
Qed.

(** C10 at ["99:99"]: 99 minutes and 99 seconds are 6039 seconds, an [int]
    equal to the float 6039.0. *)
Lemma time_99_99 :
  parse_time "99:99" = Return (PyTime (PyInt 6039))
  ∧ py_eq (PyInt 6039) (PyFloat (Float.of_int 6039)) = true.
Proof.
  split; [|reflexivity].
  exact (proj1 (proj2 (parse_time_no_range_check 99 99 99
    ltac:(lia) ltac:(lia) ltac:(lia)))).
Defined.

(** ** [parse_track] *)

(** [parse_track] on a line of two fields or more. *)
Lemma parse_track_fields line p0 p1 rest :
  split "|" line = p0 :: p1 :: rest →
  parse_track line =
    start ← parse_time p0;
    match start with
    | PyFalse => Return (inl MSG_START)
    | PyTime start =>
        e ← parse_time p1;
        match e, rest with
        | PyFalse, _ => Return (inr (Track start None p1 (head rest)))
        | PyTime t, [] => Return (inl MSG_NAME)
        | PyTime t, name :: rest' =>
            Return (inr (Track start (Some t) name (head rest')))
        end
    end.
Proof.
  intros Hs. unfold parse_track, item. rewrite Hs. simpl.
  destruct (parse_time p0) as [[|start]|e]; simpl; [done| |done].
  destruct (parse_time p1) as [[|t]|e]; simpl; [| |done].
  - by destruct rest.
  - by destruct rest as [|name [|??]].
Qed.

(** C4: once the start time has parsed, a second field that is not a time is
    the song name, the end time stays absent and the field after it, if any,
    is the artist; a second field that is a time is always the end time, so
    that the song name is the third field and a line without one is
    refused. *)
Theorem second_field_time_or_name line p0 p1 rest start :
  split "|" line = p0 :: p1 :: rest →
  parse_time p0 = Return (PyTime start) →
  (parse_time p1 = Return PyFalse →
   parse_track line = Return (inr (Track start None p1 (head rest))))
  ∧ (∀ t, parse_time p1 = Return (PyTime t) →
     parse_track line =
       match rest with
       | [] => Return (inl MSG_NAME)
       | name :: rest' =>
           Return (inr (Track start (Some t) name (head rest')))
       end).
Proof.
  intros Hs H0. rewrite (parse_track_fields _ _ _ _ Hs), H0.
  split; [intros ->|intros t ->]; by destruct rest.
Qed.

(** C4 at ["10|Song"], ["10|Song|Artist"] and ["10|20|Song"]. *)
Lemma lines_10_Song :
  parse_track "10|Song" = Return (inr (Track (PyInt 10) None "Song" None))
  ∧ parse_track "10|Song|Artist"
    = Return (inr (Track (PyInt 10) None "Song" (Some "Artist")))
  ∧ parse_track "10|20|Song"
    = Return (inr (Track (PyInt 10) (Some (PyInt 20)) "Song" None)).
Proof.
  split; [|split].
  - exact (proj1 (second_field_time_or_name "10|Song" "10" "Song" []
             (PyInt 10) eq_refl eq_refl) eq_refl).
  - exact (proj1 (second_field_time_or_name "10|Song|Artist" "10" "Song"
             ["Artist"] (PyInt 10) eq_refl eq_refl) eq_refl).
  - exact (proj2 (second_field_time_or_name "10|20|Song" "10" "20"
             ["Song"] (PyInt 10) eq_refl eq_refl) (PyInt 20) eq_refl).
Defined.

(** C5, amended: [parse_track] refuses a line whose song-name field is
    missing, that is a line of fewer than two fields, or a line of two
    fields whose second is a time; a song-name field that is there but
    empty is accepted and gives a track with an empty name. *)
Theorem song_name_field_required line :
  (length (split "|" line) < 2 → parse_track line = Return (inl MSG_FIELDS))
  ∧ (∀ p0 p1 start t,
       split "|" line = [p0; p1] →
       parse_time p0 = Return (PyTime start) →
       parse_time p1 = Return (PyTime t) →
       parse_track line = Return (inl MSG_NAME))
  ∧ (∀ p0 rest start,
       split "|" line = p0 :: EmptyString :: rest →
       parse_time p0 = Return (PyTime start) →
       parse_track line
       = Return (inr (Track start None EmptyString (head rest)))).
Proof.
  split; [|split].
  - intros Hn. unfold parse_track.
    by destruct (split "|" line) as [|? [|??]]; simpl in *; try lia.
  - intros p0 p1 start t Hs H0 H1.
    by rewrite (parse_track_fields _ _ _ _ Hs), H0, H1.
  - intros p0 rest start Hs H0.
    rewrite (parse_track_fields _ _ _ _ Hs), H0.
    by destruct rest.
Qed.

(** C5 at ["10"], ["10|20"] and ["10|"]. *)
Lemma lines_without_song_name :
  parse_track "10" = Return (inl MSG_FIELDS)
  ∧ parse_track "10|20" = Return (inl MSG_NAME)
  ∧ parse_track "10|" = Return (inr (Track (PyInt 10) None "" None)).
Proof.
  split; [|split].
  - apply (proj1 (song_name_field_required "10")). simpl. lia.
  - exact (proj1 (proj2 (song_name_field_required "10|20"))
             "10" "20" (PyInt 10) (PyInt 20) eq_refl eq_refl eq_refl).
  - exact (proj2 (proj2 (song_name_field_required "10|"))
             "10" [] (PyInt 10) eq_refl eq_refl).
Defined.

(** C5 as stated fails: the song-name field of ["10|"] is empty and the
    line is a track all the same. *)
Lemma line_with_empty_song_name :
  parse_track "10|" = Return (inr (Track (PyInt 10) None "" None))
  ∧ ¬ ∃ msg, parse_track "10|" = Return (inl msg).
Proof. split; [reflexivity|]. intros [msg H]. discriminate. Qed.

(** ** [get_timings] *)

Lemma get_next_line_after_comments (cs : file) l reader :
  forallb is_comment cs = true → is_comment l = false →
  get_next_line (cs ++ l :: reader) = (strip l, length cs + 1, reader).
Proof.
  intros Hcs Hl. induction cs as [|c cs IH]; simpl in *.
  - by rewrite get_next_line_real.
  - apply andb_true_iff in Hcs as [Hc Hcs].
    rewrite get_next_line_comment by done. by rewrite IH.
Qed.

Lemma format_music a b :
  format MSG_MUSIC [ArgStr a; ArgStr b]
  = "The given music file '" +:+ a +:+ "' in '" +:+ b +:+ "' doesn't exist".
Proof. reflexivity. Qed.

Section GetTimings.

Context (read_text : string → string) (Path : string → string)
        (path_exists : string → bool) (timing_file : string).

(** [read_timings] on the lines of the file. *)
Lemma read_timings_lines :
  read_timings read_text Path path_exists timing_file =
    let first := get_next_line (readlines (read_text timing_file)) in
    if negb (path_exists (Path first.1.1)) then
      Return (inl (format MSG_MUSIC
                     [ArgStr (Path first.1.1); ArgStr timing_file]))
    else
      r ← loop_after timing_file first.2 first.1.2 [];
      match r with
      | inl msg => Return (inl msg)
      | inr tracks => Return (inr (Path first.1.1, tracks))
      end.
Proof.
  unfold read_timings, loop_after. cbv zeta.
  destruct (get_next_line (readlines (read_text timing_file)))
    as [[line lines] reader].
  cbn [fst snd]. destruct (negb _); [done|].
  by destruct (get_next_line reader) as [[line' lines'] reader'].
Qed.

(** C3: when every line has parsed, [get_timings] returns the tracks as
    parsed but for their end times: a track whose end time is absent takes
    the start time of the track after it, and keeps it absent when it is
    the last; an end time that was given stays; with one track or none
    nothing changes. *)
Theorem end_time_resolution music raw :
  read_timings read_text Path path_exists timing_file
  = Return (inr (music, raw)) →
  ∃ tm, get_timings read_text Path path_exists timing_file = Return (inr tm)
    ∧ music_file tm = music
    ∧ length (tracks tm) = length raw
    ∧ (∀ i t, raw !! i = Some t →
         ∃ t', tracks tm !! i = Some t'
           ∧ start_time t' = start_time t
           ∧ song_name t' = song_name t
           ∧ artist t' = artist t
           ∧ end_time t' =
               match end_time t with
               | Some e => Some e
               | None => start_time <$> raw !! S i
               end)
    ∧ (length raw ≤ 1 → tracks tm = raw).
Proof.
  intros Hr. unfold get_timings. rewrite Hr. cbn [mbind outcome_bind].
  rewrite adjust_end_times_resolved. cbn [mbind outcome_bind].
  eexists. split; [done|]. cbn [music_file tracks].
  split; [done|]. split; [apply resolved_length|]. split.
  - intros i t Hi. rewrite (resolved_lookup _ _ _ Hi).
    eexists. split; [done|].
    destruct (end_time t) as [e|] eqn:He, (raw !! S i) as [next|];
      simpl; by rewrite ?He.
  - intros Hn. destruct raw as [|t [|??]]; simpl in *; [done| |lia].
    by destruct (end_time t).
Qed.

(** C7: when the music file named by the first real line does not exist,
    [get_timings] returns the one message that names it and the timing
    file, whatever the other lines are, and no track. *)
Theorem missing_music_file :
  let music :=
    Path (get_next_line (readlines (read_text timing_file))).1.1 in
  path_exists music = false →
  get_timings read_text Path path_exists timing_file =
    Return (inl ("The given music file '" +:+ music +:+ "' in '"
                 +:+ timing_file +:+ "' doesn't exist")).
Proof.
  intros music Hm. unfold get_timings.
  rewrite read_timings_lines. cbv zeta. fold music. rewrite Hm.
  cbn [negb mbind outcome_bind]. by rewrite format_music.
Qed.

(** When the lines after the music file are comment lines and track lines
    only, every track line is parsed. *)
Lemma read_timings_tracks (pre mid : file) music :
  readlines (read_text timing_file) = pre ++ music :: mid →
  forallb is_comment pre = true →
  is_comment music = false →
  path_exists (Path (strip music)) = true →
  forallb comment_or_track mid = true →
  read_timings read_text Path path_exists timing_file
  = Return (inr (Path (strip music), parsed_tracks mid)).
Proof.
  intros Hlines Hpre Hmusic Hexists Hmid.
  rewrite read_timings_lines, Hlines.
  rewrite get_next_line_after_comments by done.
  cbv zeta. cbn [fst snd]. rewrite Hexists. cbn [negb].
  by rewrite loop_after_tracks.
Qed.

(** The first malformed line that the loop reaches ends [get_timings] with
    its message and its line number, comment lines counted. *)
Lemma get_timings_malformed (pre mid post : file) music bad msg :
  readlines (read_text timing_file) = pre ++ music :: mid ++ bad :: post →
  forallb is_comment pre = true →
  is_comment music = false →
  path_exists (Path (strip music)) = true →
  forallb comment_or_track mid = true →
  malformed_line bad = Some msg →
  get_timings read_text Path path_exists timing_file =
    Return (inl (format msg
      [ArgStr timing_file; ArgInt (length pre + 1 + length mid + 1)])).
Proof.
  intros Hlines Hpre Hmusic Hexists Hmid Hbad.
  unfold get_timings. rewrite read_timings_lines, Hlines.
  rewrite get_next_line_after_comments by done.
  cbv zeta. cbn [fst snd]. rewrite Hexists. cbn [negb].
  by rewrite (loop_after_error _ _ _ _ msg).
Qed.

End GetTimings.

(** C9: a line that starts with [#] gives no track, so that the file
    without its comment lines has the same result but for the line number of
    the message; and the line number reported for a malformed line is its
    position in the file, the comment lines before it counted. *)
Theorem comment_lines_counted_not_parsed
    read_text read_text' Path path_exists timing_file :
  readlines (read_text' timing_file)
  = real_lines (readlines (read_text timing_file)) →
  without_message (get_timings read_text Path path_exists timing_file)
  = without_message (get_timings read_text' Path path_exists timing_file)
  ∧ ∀ (pre mid post : file) music bad msg,
      readlines (read_text timing_file) = pre ++ music :: mid ++ bad :: post →
      forallb is_comment pre = true →
      is_comment music = false →
      path_exists (Path (strip music)) = true →
      forallb comment_or_track mid = true →
      malformed_line bad = Some msg →
      let n := length pre + 1 + length mid + 1 in
      readlines (read_text timing_file) !! (n - 1) = Some bad
      ∧ get_timings read_text Path path_exists timing_file
        = Return (inl (format msg [ArgStr timing_file; ArgInt n])).
Proof.
  intros Hreal. split.
  - unfold get_timings. rewrite !read_timings_lines, Hreal.
    set (R := readlines (read_text timing_file)). cbv zeta.
    destruct (get_next_line_real_lines R) as [-> ->].
    destruct (negb _); [done|].
    pose proof (loop_after_real_lines timing_file (get_next_line R).2
      (get_next_line R).1.2 (get_next_line (real_lines R)).1.2 []) as HL.
    destruct (loop_after _ (get_next_line R).2 _ _) as [[?|ts]|?],
      (loop_after _ (real_lines _) _ _) as [[?|ts']|?];
      simpl in HL; try done; injection HL as <-; cbn [mbind outcome_bind];
      [by destruct (adjust_end_times ts)|done].
  - intros pre mid post music bad msg Hlines Hpre Hmusic Hex Hmid Hbad n.
    split.
    + rewrite Hlines. subst n.
      change (pre ++ music :: mid ++ bad :: post)
        with (pre ++ (music :: mid) ++ bad :: post).
      rewrite app_assoc. apply list_lookup_middle.
      rewrite length_app. simpl. lia.
    + by apply (get_timings_malformed _ _ _ _ pre mid post music bad).
Qed.

(** ** Examples on whole files *)

(** The timings of [album]. *)
Lemma album_timings :
  get_timings (λ _, album) id all_exist "album.txt"
  = Return (inr (Timings "music.mp3"
      [Track (PyInt 0) (Some (PyInt 10)) "A" None;
       Track (PyInt 10) (Some (PyInt 20)) "B" (Some "X");
       Track (PyInt 30) (Some (PyInt 40)) "C" None;
       Track (PyInt 40) None "D" None])).
Proof. vm_compute. reflexivity. Qed.

(** C3 on [album]. *)
Lemma album_end_times :
  ∃ tm, get_timings (λ _, album) id all_exist "album.txt" = Return (inr tm)
    ∧ music_file tm = "music.mp3"
    ∧ length (tracks tm) = length album_raw
    ∧ (∀ i t, album_raw !! i = Some t →
         ∃ t', tracks tm !! i = Some t'
           ∧ start_time t' = start_time t
           ∧ song_name t' = song_name t
           ∧ artist t' = artist t
           ∧ end_time t' =
               match end_time t with
               | Some e => Some e
               | None => start_time <$> album_raw !! S i
               end)
    ∧ (length album_raw ≤ 1 → tracks tm = album_raw).
Proof.
  apply (end_time_resolution (λ _, album) id all_exist "album.txt").
  vm_compute. reflexivity.
Defined.

(** C7 on a file whose music file is missing. *)
Lemma album_without_music :
  get_timings (λ _, text_of ["missing.mp3"; "00|A"; "10"]) id none_exists
    "album.txt"
  = Return (inl
      "The given music file 'missing.mp3' in 'album.txt' doesn't exist").
Proof.
  exact (missing_music_file (λ _, text_of ["missing.mp3"; "00|A"; "10"]) id
           none_exists "album.txt" eq_refl).
Defined.

(** C9 on [commented]. *)
Lemma commented_album_line_6 :
  without_message
    (get_timings (λ _, text_of commented) id all_exist "album.txt")
  = without_message
      (get_timings (λ _, text_of uncommented) id all_exist "album.txt")
  ∧ readlines (text_of commented) !! 5 = Some (with_newline "10|20")
  ∧ get_timings (λ _, text_of commented) id all_exist "album.txt"
    = Return (inl "'album.txt' at line 6 must have a song name").
Proof.
  pose proof (comment_lines_counted_not_parsed
    (λ _, text_of commented) (λ _, text_of uncommented) id all_exist
    "album.txt" eq_refl) as [Hsame Hline].
  split; [exact Hsame|].
  exact (Hline [with_newline "# album"] (with_newline <$>
           ["# side one"; "00|A"; "# side two"]) [with_newline "30|C"]
           (with_newline "music.mp3") (with_newline "10|20") MSG_NAME
           eq_refl eq_refl eq_refl eq_refl eq_refl eq_refl).
Defined.

(** A line that is blank once stripped ends the loop of [get_timings] like
    the end of the file: the lines after it are not read. *)
Lemma loop_after_blank timing_file blank reader n tracks :
  is_comment blank = false → strip blank = EmptyString →
  loop_after timing_file (blank :: reader) n tracks = Return (inr tracks).
Proof.
  intros Hc Hb. rewrite loop_after_real by done.
  by rewrite Hb, track_loop_end.
Qed.

(** C8, where the code goes wrong: the track line ["10|B"] comes after a
    blank line and is not parsed; the result has the track before it
    only. *)
Theorem track_line_after_blank_line :
  track_line (with_newline "10|B") = true
  ∧ get_timings (λ _, text_of ["music.mp3"; "00|A"; ""; "10|B"]) id all_exist
      "album.txt"
    = Return (inr (Timings "music.mp3" [Track (PyInt 0) None "A" None])).
Proof. split; vm_compute; reflexivity. Qed.

(** C6, where the code goes wrong: the malformed line ["10"] comes after a
    blank line; no message is returned but the track before it. *)
Theorem malformed_line_after_blank_line :
  malformed_line (with_newline "10") = Some MSG_FIELDS
  ∧ get_timings (λ _, text_of ["music.mp3"; "00|A"; "  "; "10"]) id all_exist
      "album.txt"
    = Return (inr (Timings "music.mp3" [Track (PyInt 0) None "A" None])).
Proof. split; vm_compute; reflexivity. Qed.

(** * Further properties *)

(** ** What [TIME_RE] accepts *)

Section ExecInversion.

Context (p : nat) (g : captures) (k : cursor → captures → option captures)
        (m : captures).

Lemma exec_group_two_digits_inv name s :
  exec (Group name two_digits) (Cursor p s) g k = Some m →
  ∃ a b s', s = String a (String b s')
    ∧ is_digit a = true ∧ is_digit b = true
    ∧ k (Cursor (S (S p)) s') (<[name := two a b]> g) = Some m.
Proof.
  unfold two_digits. destruct s as [|a [|b s']].
  - done.
  - simpl. by destruct (is_digit a).
  - destruct (is_digit a) eqn:Ha, (is_digit b) eqn:Hb;
      [|simpl; by rewrite Ha, ?Hb..].
    rewrite exec_group_two_digits by done.
    intros H. by exists a, b, s'.
Qed.

Lemma exec_lit_inv c s :
  exec (Chr (Lit c)) (Cursor p s) g k = Some m →
  ∃ s', s = String c s' ∧ k (Cursor (S p) s') g = Some m.
Proof.
  destruct s as [|c' s']; simpl; [done|].
  case_bool_decide; [|done]. subst. intros H. by exists s'.
Qed.

Lemma exec_opt_inv r cur :
  exec (Opt r) cur g k = Some m →
  exec r cur g k = Some m ∨ (exec r cur g k = None ∧ k cur g = Some m).
Proof. simpl. destruct (exec r cur g k); [left|right]; done. Qed.

End ExecInversion.

Lemma substring_prefix s t :
  substring 0 (String.length s) (s +:+ t) = s.
Proof. induction s as [|c s IH]; simpl; [by destruct t|]. by rewrite IH. Qed.

Lemma exec_plus_digits_inv s p g k m :
  exec_plus Digit s p g k = Some m →
  ∃ d s', s = d +:+ s' ∧ d ≠ EmptyString ∧ all_digits d = true
    ∧ k (Cursor (String.length d + p) s') g = Some m.
Proof.
  revert p. induction s as [|c s IH]; intros p; simpl; [done|].
  destruct (is_digit c) eqn:Hc; [|done].
  destruct (exec_plus Digit s (S p) g k) as [m'|] eqn:Hs.
  - intros [= ->]. destruct (IH (S p) Hs) as (d & s' & -> & Hne & Hd & Hk).
    exists (String c d), s'. simpl. rewrite Hc, Hd.
    repeat split; try done.
    by replace (S (String.length d + p)) with (String.length d + S p) by lia.
  - intros Hk. exists (String c EmptyString), s. simpl. by rewrite Hc.
Qed.

Lemma at_eol_inv e :
  at_eol e = true ↔ e = EmptyString ∨ e = String newline EmptyString.
Proof.
  split.
  - destruct e as [|c [|??]]; simpl; [by left| |done].
    case_bool_decide; [|done]. subst. by right.
  - by intros [->| ->].
Qed.

(** [\d+] on a run of digits followed by a text that starts with no
    digit. *)
Lemma exec_plus_digits_then d e p g k m :
  d ≠ EmptyString → all_digits d = true →
  (∀ p', exec_plus Digit e p' g k = None) →
  k (Cursor (String.length d + p) e) g = Some m →
  exec_plus Digit (d +:+ e) p g k = Some m.
Proof.
  intros Hne Hd He. revert p Hne.
  induction d as [|c d IH]; intros p Hne Hk; [done|].
  simpl in *. apply andb_true_iff in Hd as [Hc Hd]. rewrite Hc.
  destruct d as [|c' d'].
  - simpl in *. by rewrite He.
  - rewrite (IH Hd (S p)); [done|done|].
    by replace (String.length (String c' d') + S p)
       with (S (String.length (String c' d') + p)) by lia.
Qed.

Lemma exec_plus_at_eol e p g k :
  at_eol e = true → exec_plus Digit e p g k = None.
Proof. intros [->| ->]%at_eol_inv; done. Qed.

(** The tail of [TIME_RE] on the tail of a text of the grammar, a newline
    after it or not. *)
Lemma exec_time_tail_eol p g s1 s2 frac e :
  is_digit s1 = true → is_digit s2 = true → fraction_ok frac = true →
  at_eol e = true →
  exec (Cat (Group "S" two_digits)
         (Cat (Opt (Cat (Chr (Lit ".")) (Group "ms" (Plus Digit)))) Eol))
       (Cursor p (String s1 (String s2 (fraction_text frac +:+ e))))
       g (λ _ g', Some g')
  = Some (match frac with
          | None => <["S" := two s1 s2]> g
          | Some d => <["ms" := d]> (<["S" := two s1 s2]> g)
          end).
Proof.
  intros H1 H2 Hf He. match_field. rewrite exec_cat.
  destruct frac as [d|].
  - simpl in Hf. apply andb_true_iff in Hf as [Hne Hd].
    apply negb_true_iff, bool_decide_eq_false in Hne.
    apply exec_opt_some. rewrite exec_cat.
    change (fraction_text (Some d) +:+ e) with (String "." (d +:+ e)).
    rewrite exec_lit. cbn [exec rest pos].
    apply exec_plus_digits_then; [done|done| |].
    + intros p'. by apply exec_plus_at_eol.
    + cbn [rest pos]. rewrite He.
      replace (String.length d + S (S (S p)) - S (S (S p)))
        with (String.length d) by lia.
      by rewrite substring_prefix.
  - change (fraction_text None +:+ e) with e.
    rewrite exec_opt_none; [cbn [exec rest]; by rewrite He|].
    rewrite exec_cat. by apply at_eol_inv in He as [->| ->].
Qed.

Lemma exec_time_tail_inv p g s m :
  exec (Cat (Group "S" two_digits)
         (Cat (Opt (Cat (Chr (Lit ".")) (Group "ms" (Plus Digit)))) Eol))
       (Cursor p s) g (λ _ g', Some g') = Some m →
  ∃ s1 s2 frac e,
    s = String s1 (String s2 (fraction_text frac +:+ e))
    ∧ is_digit s1 = true ∧ is_digit s2 = true ∧ fraction_ok frac = true
    ∧ at_eol e = true
    ∧ m = match frac with
          | None => <["S" := two s1 s2]> g
          | Some d => <["ms" := d]> (<["S" := two s1 s2]> g)
          end.
Proof.
  rewrite exec_cat.
  intros (s1 & s2 & s' & -> & H1 & H2 & H)%exec_group_two_digits_inv.
  rewrite exec_cat in H.
  apply exec_opt_inv in H as [H|[_ H]].
  - rewrite exec_cat in H. apply exec_lit_inv in H as (t & -> & H).
    cbn [exec rest pos] in H.
    apply exec_plus_digits_inv in H as (d & e & -> & Hne & Hd & H).
    cbn [rest pos] in H. destruct (at_eol e) eqn:He; [|done].
    injection H as <-.
    exists s1, s2, (Some d), e. simpl. rewrite Hd.
    rewrite (bool_decide_eq_false_2 _ Hne).
    replace (String.length d + S (S (S p)) - S (S (S p)))
      with (String.length d) by lia.
    by rewrite substring_prefix.
  - cbn [exec rest] in H. destruct (at_eol s') eqn:He; [|done].
    injection H as <-. by exists s1, s2, None, s'.
Qed.

(** [TIME_RE] matches the texts of the grammar, followed by a newline or
    not, and nothing else. *)
Lemma re_match_time_eol pre s1 s2 frac e :
  grammar_ok pre s1 s2 frac = true → at_eol e = true →
  re_match TIME_RE (time_text pre s1 s2 frac +:+ e)
  = Some (time_groups pre s1 s2 frac).
Proof.
  unfold grammar_ok. rewrite !andb_true_iff. intros [[[Hp H1] H2] Hf] He.
  assert (time_text pre s1 s2 frac +:+ e =
    let tail := String s1 (String s2 (fraction_text frac +:+ e)) in
    match pre with
    | NoPrefix => tail
    | WithMinutes m1 m2 => String m1 (String m2 (String ":" tail))
    | WithHours h1 h2 m1 m2 =>
        String h1 (String h2 (String ":"
          (String m1 (String m2 (String ":" tail)))))
    end) as -> by (by destruct pre).
  unfold re_match, TIME_RE, time_groups.
  rewrite exec_cat, exec_bol, exec_cat.
  destruct pre as [|m1 m2|h1 h2 m1 m2]; cbn [prefix_ok prefix_groups] in *;
    rewrite ?andb_true_iff in Hp; cbv zeta.
  - rewrite exec_opt_none.
    + rewrite (exec_time_tail_eol 0 ∅ s1 s2 frac e) by done. by destruct frac.
    + rewrite exec_cat, exec_opt_none; match_field;
        destruct frac; simpl; try done;
        by apply at_eol_inv in He as [->| ->].
  - destruct Hp as [Hm1 Hm2].
    apply exec_opt_some. rewrite exec_cat, exec_opt_none.
    + match_field. rewrite exec_lit.
      rewrite (exec_time_tail_eol 3 _ s1 s2 frac e) by done.
      by destruct frac.
    + match_field. rewrite exec_lit. match_field.
      destruct frac; simpl; try done;
        by apply at_eol_inv in He as [->| ->].
  - destruct Hp as [[[Hh1 Hh2] Hm1] Hm2].
    apply exec_opt_some. rewrite exec_cat. apply exec_opt_some.
    match_field. rewrite exec_lit. match_field. rewrite exec_lit.
    rewrite (exec_time_tail_eol 6 _ s1 s2 frac e) by done. by destruct frac.
Qed.

Lemma re_match_time_inv s m :
  re_match TIME_RE s = Some m →
  ∃ pre s1 s2 frac e,
    s = time_text pre s1 s2 frac +:+ e
    ∧ grammar_ok pre s1 s2 frac = true ∧ at_eol e = true.
Proof.
  unfold re_match, TIME_RE. rewrite exec_cat, exec_bol, exec_cat.
  intros H. apply exec_opt_inv in H as [H|[_ H]].
  - rewrite exec_cat in H. apply exec_opt_inv in H as [H|[_ H]].
    + rewrite exec_cat in H.
      apply exec_group_two_digits_inv in H
        as (h1 & h2 & t & -> & Hh1 & Hh2 & H).
      apply exec_lit_inv in H as (t' & -> & H). rewrite exec_cat in H.
      apply exec_group_two_digits_inv in H
        as (m1 & m2 & t & -> & Hm1 & Hm2 & H).
      apply exec_lit_inv in H as (t' & -> & H).
      apply exec_time_tail_inv in H
        as (s1 & s2 & frac & e & -> & H1 & H2 & Hf & He & _).
      exists (WithHours h1 h2 m1 m2), s1, s2, frac, e.
      unfold grammar_ok. simpl. by rewrite Hh1, Hh2, Hm1, Hm2, H1, H2, Hf.
    + rewrite exec_cat in H.
      apply exec_group_two_digits_inv in H
        as (m1 & m2 & t & -> & Hm1 & Hm2 & H).
      apply exec_lit_inv in H as (t' & -> & H).
      apply exec_time_tail_inv in H
        as (s1 & s2 & frac & e & -> & H1 & H2 & Hf & He & _).
      exists (WithMinutes m1 m2), s1, s2, frac, e.
      unfold grammar_ok. simpl. by rewrite Hm1, Hm2, H1, H2, Hf.
  - apply exec_time_tail_inv in H
      as (s1 & s2 & frac & e & -> & H1 & H2 & Hf & He & _).
    exists NoPrefix, s1, s2, frac, e.
    unfold grammar_ok. simpl. by rewrite H1, H2, Hf.
Qed.

Lemma append_empty s : s +:+ EmptyString = s.
Proof.
  induction s as [|c s IH]; [done|].
  change (String c (s +:+ EmptyString) = String c s). by rewrite IH.
Qed.

(** [parse_time] looks at its text through [TIME_RE] only. *)
Lemma parse_time_same_match s t :
  re_match TIME_RE s = re_match TIME_RE t → parse_time s = parse_time t.
Proof. unfold parse_time. by intros ->. Qed.

Lemma parse_time_eol pre s1 s2 frac e :
  grammar_ok pre s1 s2 frac = true → at_eol e = true →
  parse_time (time_text pre s1 s2 frac +:+ e)
  = parse_time (time_text pre s1 s2 frac).
Proof.
  intros Hok He. apply parse_time_same_match.
  by rewrite re_match_time_eol, re_match_time.
Qed.



(** X2: a newline after a text of the grammar changes nothing: [$] matches
    before it, and [parse_time] returns what it returns without it. *)
Theorem parse_time_trailing_newline pre s1 s2 frac :
  grammar_ok pre s1 s2 frac = true →
  parse_time (time_text pre s1 s2 frac +:+ nl)
  = parse_time (time_text pre s1 s2 frac).
Proof. intros Hok. by apply parse_time_eol. Qed.

(** X2 at ["01:30"] and a newline: 90 seconds. *)
Lemma time_01_30_newline :
  grammar_ok (WithMinutes "0" "1") "3" "0" None = true
  ∧ parse_time ("01:30" +:+ nl) = Return (PyTime (PyInt 90))
  ∧ parse_time "01:30" = Return (PyTime (PyInt 90)).
Proof.
  split; [reflexivity|]. split; [|reflexivity].
  exact (eq_trans
    (parse_time_trailing_newline (WithMinutes "0" "1") "3" "0" None eq_refl)
    eq_refl).
Defined.

(** ** What [parse_track] refuses and returns *)

Lemma split_two_or_more line :
  (length (split "|" line) < 2 ∧ parse_track line = Return (inl MSG_FIELDS))
  ∨ ∃ p0 p1 rest, split "|" line = p0 :: p1 :: rest.
Proof.
  unfold parse_track. destruct (split "|" line) as [|p0 [|p1 rest]]; simpl.
  - left. split; [lia|done].
  - left. split; [lia|done].
  - right. by exists p0, p1, rest.
Qed.

(** X3: [parse_track] answers with the start-time message exactly when the
    line has two fields or more and its first field is not a time. *)
Theorem start_time_message line :
  parse_track line = Return (inl MSG_START) ↔
  ∃ p0 p1 rest,
    split "|" line = p0 :: p1 :: rest ∧ parse_time p0 = Return PyFalse.
Proof.
  split.
  - destruct (split_two_or_more line) as [[_ ->]|(p0 & p1 & rest & Hs)];
      [done|].
    rewrite (parse_track_fields _ _ _ _ Hs). intros H.
    exists p0, p1, rest. split; [done|].
    destruct (parse_time p0) as [[|start]|e]; [done| |done].
    exfalso. simpl in H.
    destruct (parse_time p1) as [[|t]|e]; simpl in H; [done| |done].
    by destruct rest.
  - intros (p0 & p1 & rest & Hs & H0).
    by rewrite (parse_track_fields _ _ _ _ Hs), H0.
Qed.

Lemma split_parts sep s part :
  part ∈ split sep s → has_char sep part = false.
Proof.
  revert part. induction s as [|c s IH]; intros part; simpl.
  - by intros ->%list_elem_of_singleton.
  - case_bool_decide as Hc.
    + intros [->|H]%elem_of_cons; [done|by apply IH].
    + destruct (split sep s) as [|p ps] eqn:Hs.
      * intros ->%list_elem_of_singleton. simpl.
        by rewrite (bool_decide_eq_false_2 _ Hc).
      * intros [->|H]%elem_of_cons.
        -- simpl. rewrite (bool_decide_eq_false_2 _ Hc). simpl.
           apply IH. by left.
        -- apply IH. by right.
Qed.

(** X4: the names of a track that [parse_track] returns hold no [|]. *)
Theorem track_names_without_separator line t :
  parse_track line = Return (inr t) →
  has_char "|" (song_name t) = false
  ∧ ∀ a, artist t = Some a → has_char "|" a = false.
Proof.
  destruct (split_two_or_more line) as [[_ ->]|(p0 & p1 & rest & Hs)];
    [done|].
  assert (∀ part, part ∈ p0 :: p1 :: rest → has_char "|" part = false)
    as Hparts by (intros part; rewrite <-Hs; apply split_parts).
  rewrite (parse_track_fields _ _ _ _ Hs).
  destruct (parse_time p0) as [[|start]|e]; simpl; [done| |done].
  destruct (parse_time p1) as [[|t1]|e]; simpl; [| |done].
  - intros [= <-]. simpl. split.
    + apply Hparts. set_solver.
    + intros a Ha. apply Hparts. destruct rest; simplify_eq/=. set_solver.
  - destruct rest as [|name rest']; [done|]. intros [= <-]. simpl. split.
    + apply Hparts. set_solver.
    + intros a Ha. apply Hparts. destruct rest'; simplify_eq/=. set_solver.
Qed.

(** X4 at ["10|20|Song|Artist|more"]. *)
Lemma names_of_10_20_Song :
  has_char "|" "Song" = false
  ∧ ∀ a, Some "Artist" = Some a → has_char "|" a = false.
Proof.
  exact (track_names_without_separator "10|20|Song|Artist|more"
    (Track (PyInt 10) (Some (PyInt 20)) "Song" (Some "Artist")) eq_refl).
Defined.

(** ** Reading lines *)

(** X5: [readlines] loses nothing and returns no empty line: the lines put
    end to end are the text, so that the empty line [readline] returns at the
    end of the file is told from every line of the file. *)
Theorem readlines_concat text :
  concat_lines (readlines text) = text
  ∧ Forall (λ l, l ≠ EmptyString) (readlines text).
Proof.
  induction text as [|c text [IHc IHn]]; [by split|].
  simpl. case_bool_decide.
  - split; [simpl; by rewrite IHc|]. by constructor.
  - destruct (readlines text) as [|l ls]; simpl in *.
    + split; [by rewrite <-IHc|]. by constructor.
    + split; [by rewrite <-IHc|].
      apply Forall_cons in IHn as [_ IHn]. by constructor.
Qed.

Lemma get_next_line_cases (reader : file) :
  ∃ cs : file, forallb is_comment cs = true
    ∧ ((reader = cs
        ∧ get_next_line reader = (EmptyString, length cs + 1, []))
       ∨ ∃ l r, reader = cs ++ l :: r ∧ is_comment l = false
           ∧ get_next_line reader = (strip l, length cs + 1, r)).
Proof.
  induction reader as [|l reader (cs & Hcs & IH)].
  - exists []. split; [done|]. by left.
  - destruct (is_comment l) eqn:Hl.
    + exists (l :: cs). simpl. rewrite Hl, Hcs. split; [done|].
      rewrite get_next_line_comment by done.
      destruct IH as [[-> ->]|(l' & r & -> & Hl' & ->)]; [by left|].
      right. by exists l', r.
    + exists []. split; [done|]. right. exists l, reader.
      by rewrite get_next_line_real.
Qed.

(** X6: [get_next_line] skips the comment lines at the head of the reader
    and counts the lines it read: at a line that is no comment it returns
    that line stripped, the count of the comments and one, and the lines
    after it; when only comments are left it returns the empty line and one
    more than the number of lines left. *)
Theorem get_next_line_accounting (reader : file) :
  ∃ cs : file, forallb is_comment cs = true
    ∧ ((reader = cs
        ∧ get_next_line reader = (EmptyString, length cs + 1, []))
       ∨ ∃ l r, reader = cs ++ l :: r ∧ is_comment l = false
           ∧ get_next_line reader = (strip l, length cs + 1, r)).
Proof. apply get_next_line_cases. Qed.

(** ** [get_timings] on whole files *)

(** The loop on comment lines and track lines, then on what follows. *)
Lemma loop_after_app timing_file (mid tail : file) n tracks :
  forallb comment_or_track mid = true →
  loop_after timing_file (mid ++ tail) n tracks
  = loop_after timing_file tail (n + length mid)
      (tracks ++ parsed_tracks mid).
Proof.
  intros Hmid. revert n tracks.
  induction mid as [|l mid IH]; intros n tracks; simpl in *.
  - by rewrite Nat.add_0_r, app_nil_r.
  - apply andb_true_iff in Hmid as [Hl Hmid].
    replace (n + S (length mid)) with (S n + length mid) by lia.
    unfold comment_or_track in Hl.
    destruct (is_comment l) eqn:Hc; simpl in Hl.
    + rewrite loop_after_comment by done. by apply IH.
    + destruct (loop_after_track timing_file l (mid ++ tail) n tracks)
        as (t & -> & ->); [done|].
      replace (n + 1) with (S n) by lia.
      rewrite IH by done. by rewrite <-app_assoc.
Qed.

Lemma loop_after_eof timing_file n tracks :
  loop_after timing_file [] n tracks = Return (inr tracks).
Proof. unfold loop_after. simpl. by rewrite track_loop_end. Qed.

(** The tracks [get_timings] reads: those of the track lines up to the end
    of the file or to the first blank line. *)
Lemma get_timings_tracks read_text Path path_exists timing_file
    (pre mid tail : file) music :
  readlines (read_text timing_file) = pre ++ music :: mid ++ tail →
  forallb is_comment pre = true →
  is_comment music = false →
  path_exists (Path (strip music)) = true →
  forallb comment_or_track mid = true →
  loop_after timing_file tail (length pre + 1 + length mid)
    (parsed_tracks mid) = Return (inr (parsed_tracks mid)) →
  get_timings read_text Path path_exists timing_file
  = Return (inr (Timings (Path (strip music))
                   (resolved (parsed_tracks mid)))).
Proof.
  intros Hlines Hpre Hmusic Hexists Hmid Htail.
  unfold get_timings. rewrite read_timings_lines, Hlines.
  rewrite get_next_line_after_comments by done.
  cbv zeta. cbn [fst snd]. rewrite Hexists. cbn [negb].
  rewrite loop_after_app by done. cbn [app]. rewrite Htail.
  cbn [mbind outcome_bind]. by rewrite adjust_end_times_resolved.
Qed.

(** X7: on a file made of comment lines, the line of a music file that
    exists and track lines, [get_timings] returns the music file and the
    track of every track line, in the order of the lines, after the
    resolution pass. *)
Theorem get_timings_well_formed read_text Path path_exists timing_file
    (pre mid : file) music :
  readlines (read_text timing_file) = pre ++ music :: mid →
  forallb is_comment pre = true →
  is_comment music = false →
  path_exists (Path (strip music)) = true →
  forallb comment_or_track mid = true →
  get_timings read_text Path path_exists timing_file
  = Return (inr (Timings (Path (strip music))
                   (resolved (parsed_tracks mid)))).
Proof.
  intros Hlines Hpre Hmusic Hexists Hmid.
  apply (get_timings_tracks _ _ _ _ pre mid [] music);
    try done; try apply loop_after_eof.
  by rewrite app_nil_r.
Qed.

(** X7 on [commented] without its malformed line. *)
Lemma commented_well_formed :
  get_timings
    (λ _, text_of ["# album"; "music.mp3"; "# side one"; "00|A"; "30|C"])
    id all_exist "album.txt"
  = Return (inr (Timings "music.mp3"
      [Track (PyInt 0) (Some (PyInt 30)) "A" None;
       Track (PyInt 30) None "C" None])).
Proof.
  refine (eq_trans (get_timings_well_formed
    (λ _, text_of ["# album"; "music.mp3"; "# side one"; "00|A"; "30|C"])
    id all_exist "album.txt" [with_newline "# album"]
    (with_newline <$> ["# side one"; "00|A"; "30|C"])
    (with_newline "music.mp3") _ _ _ _ _) _); vm_compute; reflexivity.
Defined.

(** X8: the first line that is blank once stripped ends the track list:
    whatever the lines after it, well formed or not, [get_timings] returns
    the tracks of the lines before it and no message. *)
Theorem get_timings_until_blank read_text Path path_exists timing_file
    (pre mid post : file) music blank :
  readlines (read_text timing_file) = pre ++ music :: mid ++ blank :: post →
  forallb is_comment pre = true →
  is_comment music = false →
  path_exists (Path (strip music)) = true →
  forallb comment_or_track mid = true →
  is_comment blank = false → strip blank = EmptyString →
  get_timings read_text Path path_exists timing_file
  = Return (inr (Timings (Path (strip music))
                   (resolved (parsed_tracks mid)))).
Proof.
  intros Hlines Hpre Hmusic Hexists Hmid Hc Hb.
  apply (get_timings_tracks _ _ _ _ pre mid (blank :: post) music);
    try done.
  by apply loop_after_blank.
Qed.

(** X8 on a file with a malformed line after a blank line. *)
Lemma blank_line_then_anything :
  get_timings (λ _, text_of ["music.mp3"; "00|A"; "10|B"; " "; "oops"; "20|C"])
    id all_exist "album.txt"
  = Return (inr (Timings "music.mp3"
      [Track (PyInt 0) (Some (PyInt 10)) "A" None;
       Track (PyInt 10) None "B" None])).
Proof.
  refine (eq_trans (get_timings_until_blank
    (λ _, text_of ["music.mp3"; "00|A"; "10|B"; " "; "oops"; "20|C"])
    id all_exist "album.txt" [] (with_newline <$> ["00|A"; "10|B"])
    (with_newline <$> ["oops"; "20|C"]) (with_newline "music.mp3")
    (with_newline " ") _ _ _ _ _ _ _) _); vm_compute; reflexivity.
Defined.

Lemma resolved_end_time (raw : list track) i t :
  resolved raw !! i = Some t → S i < length raw → end_time t ≠ None.
Proof.
  intros Ht Hi.
  destruct (lookup_lt_is_Some_2 raw i) as [t0 H0]; [lia|].
  destruct (lookup_lt_is_Some_2 raw (S i)) as [next Hn]; [lia|].
  rewrite (resolved_lookup _ _ _ H0), Hn in Ht. injection Ht as <-.
  by destruct (end_time t0) eqn:He; simpl; rewrite ?He.
Qed.

(** X9: in the tracks [get_timings] returns every track but the last has an
    end time. *)
Theorem all_but_last_have_end_time
    read_text Path path_exists timing_file tm :
  get_timings read_text Path path_exists timing_file = Return (inr tm) →
  ∀ i t, tracks tm !! i = Some t → S i < length (tracks tm) →
         end_time t ≠ None.
Proof.
  unfold get_timings.
  destruct (read_timings _ _ _ _) as [[msg|[music raw]]|e]; simpl; try done.
  rewrite adjust_end_times_resolved. simpl. intros [= <-] i t Ht Hi.
  simpl in *. rewrite resolved_length in Hi.
  by apply (resolved_end_time raw i).
Qed.

(** X9 on [album]: its third track, that had no end time, has one. *)
Lemma album_third_end_time :
  end_time (Track (PyInt 30) (Some (PyInt 40)) "C" None) ≠ None.
Proof.
  refine (all_but_last_have_end_time (λ _, album) id all_exist "album.txt"
    _ album_timings 2 _ _ _); [reflexivity|simpl; lia].
Defined.

Lemma resolved_idempotent tracks :
  resolved (resolved tracks) = resolved tracks.
Proof.
  induction tracks as [|t rest IH]; [done|].
  destruct rest as [|next rest].
  - simpl. by destruct (end_time t) eqn:He; simpl; rewrite ?He.
  - rewrite (resolved_cons t next rest).
    assert (∃ n' ns, resolved (next :: rest) = n' :: ns) as (n' & ns & Hn)
      by (simpl; eauto).
    rewrite Hn in *. rewrite resolved_cons, IH. f_equal.
    by destruct (end_time t) eqn:He; simpl; rewrite ?He.
Qed.

(** X10: the end-time pass changes nothing the second time: what it
    returns is a fixed point of it. *)
Theorem adjust_end_times_idempotent tracks :
  adjust_end_times tracks ≫= adjust_end_times = adjust_end_times tracks.
Proof.
  rewrite adjust_end_times_resolved. simpl.
  by rewrite adjust_end_times_resolved, resolved_idempotent.
Qed.

Lemma get_next_line_all_comments (cs : file) :
  forallb is_comment cs = true →
  get_next_line cs = (EmptyString, length cs + 1, []).
Proof.
  induction cs as [|c cs IH]; simpl; [done|].
  intros [Hc Hcs]%andb_true_iff.
  rewrite get_next_line_comment by done. by rewrite IH.
Qed.

(** X11: a timing file that is empty or holds comment lines only names the
    music file [Path("")]: when that path exists [get_timings] returns it
    with no track, and the message about it otherwise. *)
Theorem get_timings_comments_only read_text Path path_exists timing_file :
  forallb is_comment (readlines (read_text timing_file)) = true →
  get_timings read_text Path path_exists timing_file =
    if path_exists (Path EmptyString)
    then Return (inr (Timings (Path EmptyString) []))
    else Return (inl ("The given music file '" +:+ Path EmptyString
                      +:+ "' in '" +:+ timing_file +:+ "' doesn't exist")).
Proof.
  intros Hcs. unfold get_timings. rewrite read_timings_lines.
  rewrite get_next_line_all_comments by done.
  cbv zeta. cbn [fst snd]. destruct (path_exists _); cbn [negb].
  - by rewrite loop_after_eof.
  - cbn [mbind outcome_bind]. by rewrite format_music.
Qed.

(** X11 on a file of two comment lines, [Path("")] being ["."]. *)
Lemma comments_only_file :
  get_timings (λ _, text_of ["# nothing"; "# yet"]) (λ _, ".") all_exist
    "album.txt"
  = Return (inr (Timings "." [])).
Proof.
  exact (get_timings_comments_only (λ _, text_of ["# nothing"; "# yet"])
           (λ _, ".") all_exist "album.txt" eq_refl).
Defined.

(** ** The times of the tracks *)

Lemma parse_time_ok s n :
  parse_time s = Return (PyTime n) → time_ok n = true.
Proof.
  intros H. destruct (re_match TIME_RE s) as [m|] eqn:Hm.
  - apply re_match_time_inv in Hm
      as (pre & s1 & s2 & frac & e & -> & Hok & He).
    rewrite parse_time_eol, parse_time_grammar in H by done.
    unfold grammar_ok in Hok. rewrite !andb_true_iff in Hok.
    destruct Hok as [[[Hp H1] H2] Hf].
    pose proof (whole_seconds_range pre s1 s2 Hp H1 H2).
    destruct frac as [d|].
    + destruct (py_truediv _ _); simpl in H; [|done]. by injection H as <-.
    + injection H as <-. simpl. apply andb_true_iff.
      split; apply Z.leb_le; lia.
  - unfold parse_time in H. by rewrite Hm in H.
Qed.

Lemma parse_track_ok line t :
  parse_track line = Return (inr t) → track_ok t = true.
Proof.
  destruct (split_two_or_more line) as [[_ ->]|(p0 & p1 & rest & Hs)];
    [done|].
  rewrite (parse_track_fields _ _ _ _ Hs).
  destruct (parse_time p0) as [[|start]|e] eqn:H0; simpl; [done| |done].
  apply parse_time_ok in H0.
  destruct (parse_time p1) as [[|t1]|e] eqn:H1; simpl; [| |done].
  - intros [= <-]. unfold track_ok. simpl. by rewrite H0.
  - apply parse_time_ok in H1. destruct rest as [|name rest']; [done|].
    intros [= <-]. unfold track_ok. simpl. by rewrite H0, H1.
Qed.

Lemma get_next_line_shorter (reader : file) :
  loop_measure (get_next_line reader).2 (get_next_line reader).1.1
  ≤ length reader.
Proof.
  destruct (get_next_line_cases reader)
    as (cs & _ & [[-> ->]|(l & r & -> & _ & ->)]);
    unfold loop_measure; simpl; [lia|].
  rewrite length_app. simpl. destruct (strip l); lia.
Qed.

Lemma track_loop_ok timing_file reader line line_num tracks result :
  forallb track_ok tracks = true →
  track_loop timing_file reader line line_num tracks = Return (inr result) →
  forallb track_ok result = true.
Proof.
  remember (loop_measure reader line) as n eqn:Hn.
  revert reader line line_num tracks Hn.
  induction n as [n IH] using lt_wf_ind.
  intros reader line line_num tracks -> Hts.
  destruct line as [|c line].
  - rewrite track_loop_end. by intros [= <-].
  - rewrite track_loop_step by done.
    destruct (parse_track (String c line)) as [[msg|t]|e] eqn:Ht; try done.
    assert (loop_measure (get_next_line reader).2 (get_next_line reader).1.1
            < loop_measure reader (String c line)) as Hlt.
    { pose proof (get_next_line_shorter reader) as Hle.
      unfold loop_measure at 2. lia. }
    apply (IH _ Hlt _ _ _ _ eq_refl).
    rewrite forallb_app, Hts. simpl. by rewrite (parse_track_ok _ _ Ht).
Qed.

Lemma resolved_ok tracks :
  forallb track_ok tracks = true → forallb track_ok (resolved tracks) = true.
Proof.
  induction tracks as [|t rest IH]; [done|].
  simpl. intros [Ht Hrest]%andb_true_iff. rewrite IH by done.
  rewrite andb_true_r.
  destruct (end_time t) eqn:He; [done|].
  destruct rest as [|next rest']; [done|].
  simpl in Hrest. apply andb_true_iff in Hrest as [Hn _].
  unfold track_ok in *. simpl. rewrite He in Ht.
  apply andb_true_iff in Hn as [Hn _].
  apply andb_true_iff in Ht as [Ht _]. by rewrite Ht, Hn.
Qed.

Lemma get_timings_ok read_text Path path_exists timing_file tm :
  get_timings read_text Path path_exists timing_file = Return (inr tm) →
  forallb track_ok (tracks tm) = true.
Proof.
  unfold get_timings, read_timings.
  destruct (get_next_line _) as [[line lines] reader].
  destruct (negb _); [done|].
  destruct (get_next_line reader) as [[line' lines'] reader'].
  destruct (track_loop _ _ _ _ _) as [[msg|raw]|e] eqn:Hloop; simpl;
    try done.
  rewrite adjust_end_times_resolved. simpl. intros [= <-]. simpl.
  apply resolved_ok. by apply (track_loop_ok _ _ _ _ [] _ eq_refl Hloop).
Qed.

Lemma py_sub_ok x y :
  time_ok x = true → time_ok y = true → ∃ d, py_sub x y = Return d.
Proof.
  destruct x as [a|f], y as [b|g]; simpl; intros Hx Hy; eauto.
  - apply andb_true_iff in Hx as [?%Z.leb_le ?%Z.leb_le].
    rewrite float_of_seconds by lia. simpl. eauto.
  - apply andb_true_iff in Hy as [?%Z.leb_le ?%Z.leb_le].
    rewrite float_of_seconds by lia. simpl. eauto.
Qed.

(** ** [split] *)

Section SplitProperties.

Context (str_float : spec_float → string) (music_dir suffix : string → string).

(** The command of [split], all at once. *)
Lemma split_options_command file t :
  split_options str_float music_dir suffix file t =
    duration ←
      match end_time t with
      | Some e =>
          d ← py_sub e (start_time t);
          Return ["-t"; str_number str_float d]
      | None => Return []
      end;
    Return (["ffmpeg"; "-ss"; str_number str_float (start_time t)]
            ++ duration
            ++ ["-i"; file; "-c"; "copy"; "-y";
                music_dir file +:+ "/" +:+ track_name t +:+ suffix file]).
Proof.
  unfold split_options. destruct (end_time t) as [e|]; simpl.
  - destruct (py_sub e (start_time t)); simpl; [|done].
    do 2 f_equal. by rewrite append_empty.
  - do 2 f_equal. by rewrite append_empty.
Qed.

Lemma split_options_ok file t :
  track_ok t = true →
  ∃ options, split_options str_float music_dir suffix file t = Return options.
Proof.
  unfold track_ok. intros [Hs He]%andb_true_iff.
  rewrite split_options_command.
  destruct (end_time t) as [e|]; simpl; [|eauto].
  destruct (py_sub_ok e (start_time t) He Hs) as [d ->]. simpl. eauto.
Qed.

(** X12: the duration of a track that took its end time from the next one.
    When the end-time pass fills the end of track [i] with the start [b] of
    track [i + 1], both whole seconds, the command of [split] asks for
    [-t b - a], [a] being the start of track [i]; nothing checks that it is
    positive. *)
Theorem split_duration_of_resolved_track file (raw : list track) i t next a b :
  raw !! i = Some t → raw !! S i = Some next →
  end_time t = None → start_time t = PyInt a → start_time next = PyInt b →
  ∃ ts t', adjust_end_times raw = Return ts ∧ ts !! i = Some t'
    ∧ split_options str_float music_dir suffix file t'
      = Return ["ffmpeg"; "-ss"; str_of_Z a; "-t"; str_of_Z (b - a);
                "-i"; file; "-c"; "copy"; "-y";
                music_dir file +:+ "/" +:+ track_name t +:+ suffix file].
Proof.
  intros Hi Hn He Ha Hb. rewrite adjust_end_times_resolved.
  eexists _, _. split; [done|].
  rewrite (resolved_lookup _ _ _ Hi), He, Hn. split; [done|].
  rewrite split_options_command. simpl. by rewrite Ha, Hb.
Qed.

(** X13: [split] raises nothing on the tracks of [get_timings]: the
    subtraction of its times cannot overflow, so a command is built for
    every track. *)
Theorem split_options_of_timings
    read_text Path path_exists timing_file tm t :
  get_timings read_text Path path_exists timing_file = Return (inr tm) →
  t ∈ tracks tm →
  ∃ options,
    split_options str_float music_dir suffix (music_file tm) t
    = Return options.
Proof.
  intros Htm%get_timings_ok Ht. apply split_options_ok.
  rewrite forallb_forall in Htm. apply Htm. by apply list_elem_of_In.
Qed.

(** X14: a line that ends with the separator after the song name has an
    empty artist field, and an empty artist counts as no artist: the file is
    named after the song alone, without a dangling [" by "]. *)
Theorem empty_artist_is_no_artist line p0 p1 start :
  split "|" line = [p0; p1; EmptyString] →
  parse_time p0 = Return (PyTime start) →
  parse_time p1 = Return PyFalse →
  ∃ t, parse_track line = Return (inr t)
    ∧ artist t = Some EmptyString ∧ track_name t = p1.
Proof.
  intros Hs H0 H1. rewrite (parse_track_fields _ _ _ _ Hs), H0, H1.
  by eexists.
Qed.

End SplitProperties.

(** X12 on two tracks out of order: the duration asked for is -20. *)
Lemma duration_out_of_order :
  ∃ ts t',
    adjust_end_times [Track (PyInt 30) None "A" None;
                      Track (PyInt 10) None "B" None] = Return ts
    ∧ ts !! 0 = Some t'
    ∧ split_options (λ _, "") (λ _, "music") (λ _, ".mp3") "music.mp3" t'
      = Return ["ffmpeg"; "-ss"; "30"; "-t"; "-20"; "-i"; "music.mp3";
                "-c"; "copy"; "-y"; "music/A.mp3"].
Proof.
  exact (split_duration_of_resolved_track (λ _, "") (λ _, "music")
    (λ _, ".mp3") "music.mp3"
    [Track (PyInt 30) None "A" None; Track (PyInt 10) None "B" None]
    0 _ _ 30%Z 10%Z eq_refl eq_refl eq_refl eq_refl eq_refl).
Defined.

(** X13 on the second track of [album]. *)
Lemma album_second_command :
  ∃ options,
    split_options (λ _, "") (λ _, "music") (λ _, ".mp3") "music.mp3"
      (Track (PyInt 10) (Some (PyInt 20)) "B" (Some "X"))
    = Return options.
Proof.
  refine (split_options_of_timings (λ _, "") (λ _, "music") (λ _, ".mp3")
    (λ _, album) id all_exist "album.txt" _ _ album_timings _).
  simpl. right. left.
Defined.

(** X14 at ["10|Song|"]. *)
Lemma line_10_Song_bar :
  ∃ t, parse_track "10|Song|" = Return (inr t)
    ∧ artist t = Some EmptyString ∧ track_name t = "Song".
Proof.
  exact (empty_artist_is_no_artist "10|Song|" "10" "Song" (PyInt 10)
           eq_refl eq_refl eq_refl).
Defined.

(** ** [main] *)

Section MainProperties.

Context (str_float : spec_float → string) (music_dir suffix : string → string)
        (ffmpeg : list string → Z * string) (ffmpeg_found : bool)
        (file_exists : string → bool) (read_text Path : string → string)
        (path_exists : string → bool).


Lemma split_options_last file t options :
  split_options str_float music_dir suffix file t = Return options →
  ∃ dest, item options (length options - 1) = Return dest.
Proof.
  rewrite split_options_command.
  destruct (match end_time t with Some _ => _ | None => _ end)
    as [duration|e]; simpl; [|done].
  intros [= <-]. unfold item.
  destruct (lookup_lt_is_Some_2
    (["ffmpeg"; "-ss"; str_number str_float (start_time t)] ++ duration ++
     ["-i"; file; "-c"; "copy"; "-y";
      music_dir file +:+ "/" +:+ track_name t +:+ suffix file])
    (length (["ffmpeg"; "-ss"; str_number str_float (start_time t)]
             ++ duration ++
             ["-i"; file; "-c"; "copy"; "-y";
              music_dir file +:+ "/" +:+ track_name t +:+ suffix file]) - 1))
    as [dest Hd].
  - simpl. lia.
  - simpl in *. rewrite Hd. eauto.
Qed.



Lemma all_timings_prints (timing_files : list string) :
  commands (all_timings file_exists read_text Path path_exists
              timing_files).1 = [].
Proof.
  induction timing_files as [|i rest IH]; [done|].
  simpl. unfold check_good_file.
  destruct (all_timings _ _ _ _ rest) as [events rs].
  destruct (file_exists i); simpl; [|done].
  by destruct (get_timings _ _ _ i).
Qed.







Lemma all_timings_raised (before after : list string) i e :
  all_parse file_exists read_text Path path_exists before = true →
  file_exists i = true →
  get_timings read_text Path path_exists i = Raise e →
  (all_timings file_exists read_text Path path_exists
     (before ++ i :: after)).2 = Raise e.
Proof.
  intros Hb Hi He. induction before as [|j before IH]; simpl in *.
  - unfold check_good_file. by rewrite Hi, He.
  - apply andb_true_iff in Hb as [Hj Hb]. specialize (IH Hb).
    unfold check_good_file.
    destruct (all_timings _ _ _ _ (before ++ i :: after)) as [events rs].
    simpl in IH. subst rs.
    destruct (file_exists j); simpl in *; [|done].
    by destruct (get_timings _ _ _ j).
Qed.

(** X17: every timing file is parsed before the first track is split: when
    [get_timings] raises on a timing file, [main] ends with that exception
    and has run no command but the probe, not even for the timing files
    before it. *)
Theorem main_parses_before_splitting (before after : list string) i e :
  ffmpeg_found = true →
  all_parse file_exists read_text Path path_exists before = true →
  file_exists i = true →
  get_timings read_text Path path_exists i = Raise e →
  ∃ events,
    main str_float music_dir suffix ffmpeg ffmpeg_found file_exists
      read_text Path path_exists (before ++ i :: after) = (events, Raised e)
    ∧ commands events = [["ffmpeg"; "--help"]].
Proof.
  intros Hf Hb Hi He. unfold main. rewrite Hf. simpl.
  pose proof (all_timings_raised before after i e Hb Hi He) as Hr.
  pose proof (all_timings_prints (before ++ i :: after)) as Hp.
  destruct (all_timings _ _ _ _ (before ++ i :: after)) as [prints rs].
  simpl in Hr, Hp. subst rs. eexists. split; [done|].
  simpl. by rewrite Hp.
Qed.

(** X18: the loop over the tracks of a file stops at the first track whose
    command fails: the commands run are those of the tracks before it, that
    succeeded, and its own; its error message is the last thing printed,
    and no track after it is split. *)
Theorem split_tracks_stops_at_failure music size
    (before after : list track) (done_ : list (list string)) t options k :
  Forall2 (λ t' o,
    split_options str_float music_dir suffix music t' = Return o
    ∧ (ffmpeg o).1 = 0%Z) before done_ →
  split_options str_float music_dir suffix music t = Return options →
  (ffmpeg options).1 ≠ 0%Z →
  ∃ events message,
    split_tracks str_float music_dir suffix ffmpeg music size
      (zip (seq k (length (before ++ t :: after))) (before ++ t :: after))
    = (events ++ [Printed message LF], Return tt)
    ∧ commands events = done_ ++ [options].
Proof.
  intros Hb Ho Hf. revert k.
  induction Hb as [|t' o before done_ [Ho' Hf'] _ IH]; intros k.
  - simpl. unfold split_track. rewrite Ho.
    destruct (ffmpeg options) as [returncode stderr]. simpl in *.
    rewrite (proj2 (Z.eqb_neq _ _) Hf).
    destruct (split_options_last _ _ _ Ho) as [dest ->]. simpl.
    by eexists [_; _], _.
  - simpl. unfold split_track. rewrite Ho'.
    destruct (ffmpeg o) as [returncode stderr]. simpl in *. subst.
    simpl. destruct (IH (S k)) as (events & message & -> & Hc).
    eexists (_ :: _ :: _ :: events), message. split; [done|].
    simpl. by rewrite Hc.
Qed.

End MainProperties.



(** X17: the overflow in the second file ends [main] before any track of
    the first is split. *)
Lemma demo_raised :
  ∃ events,
    demo_main ["album.txt"; "huge.txt"; "bad.txt"]
    = (events, Raised OverflowError)
    ∧ commands events = [["ffmpeg"; "--help"]].
Proof.
  apply (main_parses_before_splitting (λ _, "") (λ _, "music") (λ _, ".mp3")
    demo_ffmpeg true demo_exists demo_text id all_exist
    ["album.txt"] ["bad.txt"] "huge.txt" OverflowError);
    vm_compute; reflexivity.
Defined.

(** X18 on the tracks of [album]: the second fails, the third and the
    fourth are not split. *)
Lemma demo_stops_at_B :
  ∃ events message,
    split_tracks (λ _, "") (λ _, "music") (λ _, ".mp3") demo_ffmpeg
      "music.mp3" 4
      (zip (seq 0 4)
         [Track (PyInt 0) (Some (PyInt 10)) "A" None;
          Track (PyInt 10) (Some (PyInt 20)) "B" (Some "X");
          Track (PyInt 30) (Some (PyInt 40)) "C" None;
          Track (PyInt 40) None "D" None])
    = (events ++ [Printed message LF], Return tt)
    ∧ commands events
      = [["ffmpeg"; "-ss"; "0"; "-t"; "10"; "-i"; "music.mp3"; "-c"; "copy";
          "-y"; "music/A.mp3"]]
        ++ [["ffmpeg"; "-ss"; "10"; "-t"; "10"; "-i"; "music.mp3"; "-c";
             "copy"; "-y"; "music/B by X.mp3"]].
Proof.
  apply (split_tracks_stops_at_failure (λ _, "") (λ _, "music")
    (λ _, ".mp3") demo_ffmpeg "music.mp3" 4
    [Track (PyInt 0) (Some (PyInt 10)) "A" None]
    [Track (PyInt 30) (Some (PyInt 40)) "C" None;
     Track (PyInt 40) None "D" None]).
  - repeat constructor.
  - reflexivity.
  - vm_compute. discriminate.
Defined.
